(** * Even Crop brain: timing planner, delay estimator and GPIO drive

    A shallow embedding of the Python sources under [Even-Crop-Pi/brain]
    ([scheduler.py], [server.py], [io_gpio.py]) and the properties of the
    timing planner, the auto-delay estimator, the press history and the timed
    output drive that the specification states about them.

    Conventions of the embedding.
    - Python [int] is [Z]; Python [float] is the kernel's binary64 [float],
      so products, comparisons and conversions round as they do in CPython.
    - Python [str] is [string]; the [Literal] types of the dataclasses are
      strings compared with [==], as in the source.
    - A [Dict[str, _]] is a [gmap string _].
    - A call that may raise returns a [result]; [Raise] is an uncaught
      exception leaving the function. *)

From Stdlib Require Import ZArith List String Bool Lia.
From Stdlib Require Import PrimFloat SpecFloat FloatOps.
From Stdlib Require Import Sorted Permutation.
From stdpp Require Import base option list gmap strings pretty.

Local Open Scope Z_scope.

(* ===================================================================== *)
(** ** Python primitives used by the sources *)
(* ===================================================================== *)

Module Py.

(** The exceptions the modelled code can meet. *)
Inductive exn : Type :=
| OverflowError
| ValueError
| CancelledError
| OtherError.

Inductive result (A : Type) : Type :=
| Ok (a : A)
| Raise (e : exn).
Arguments Ok {A} a.
Arguments Raise {A} e.

#[export] Instance result_ret : MRet result := @Ok.
#[export] Instance result_bind : MBind result :=
  fun A B (f : A -> result B) (r : result A) =>
    match r with
    | Ok a => f a
    | Raise e => Raise e
    end.

Definition is_ok {A : Type} (r : result A) : bool :=
  match r with Ok _ => true | Raise _ => false end.

(** [x or d] on an int: the default replaces a falsy (zero) value. *)
Definition int_or (x d : Z) : Z := if x =? 0 then d else x.

(** [x or d] on a float: zero (of either sign) is falsy, NaN is truthy. *)
Definition float_or (x d : float) : float :=
  if PrimFloat.eqb x 0%float then d else x.

(** [s or d] on a str: the empty string is falsy. *)
Definition str_or (s d : string) : string :=
  if String.eqb s "" then d else s.

Definition str_truthy (s : string) : bool := negb (String.eqb s "").

(** Truthiness of an [Optional[str]]. *)
Definition ostr_truthy (o : option string) : bool :=
  match o with
  | None => false
  | Some s => str_truthy s
  end.

(** [a != b] between a str and an [Optional[str]]. *)
Definition str_ne_ostr (a : string) (o : option string) : bool :=
  match o with
  | None => true
  | Some b => negb (String.eqb a b)
  end.

(** [max(a, b)] on floats: the builtin keeps [a] unless [b > a]. *)
Definition max_float (a b : float) : float :=
  if PrimFloat.ltb a b then b else a.

(** Conversion of an int operand to float (in [int * float], [int / float]):
    correctly rounded, ties to even; too large an int raises. *)
Definition float_of_int (z : Z) : result float :=
  let f := SF2Prim (binary_normalize prec emax z 0 false) in
  if PrimFloat.is_infinity f then Raise OverflowError else Ok f.

(** The integer nearest to [m * 2^e], ties to the even one. *)
Definition round_half_even_pos (m : positive) (e : Z) : Z :=
  if 0 <=? e then Z.pos m * 2 ^ e
  else
    let d := 2 ^ (- e) in
    let q := Z.pos m / d in
    let r := Z.pos m mod d in
    if 2 * r <? d then q
    else if d <? 2 * r then q + 1
    else if Z.even q then q else q + 1.

(** [m * 2^e] with its fraction dropped. *)
Definition trunc_pos (m : positive) (e : Z) : Z :=
  if 0 <=? e then Z.pos m * 2 ^ e else Z.pos m / 2 ^ (- e).

Definition signed (s : bool) (z : Z) : Z := if s then - z else z.

(** [round(x)] of a float with no [ndigits]: an int, ties to even;
    infinities and NaN raise. *)
Definition round (x : float) : result Z :=
  match Prim2SF x with
  | S754_zero _ => Ok 0
  | S754_infinity _ => Raise OverflowError
  | S754_nan => Raise ValueError
  | S754_finite s m e => Ok (signed s (round_half_even_pos m e))
  end.

(** [int(x)] of a float: truncation toward zero; infinities and NaN raise. *)
Definition int_of_float (x : float) : result Z :=
  match Prim2SF x with
  | S754_zero _ => Ok 0
  | S754_infinity _ => Raise OverflowError
  | S754_nan => Raise ValueError
  | S754_finite s m e => Ok (signed s (trunc_pos m e))
  end.

(** [l[-n:]] for a positive [n]: the last [n] items, or all of [l]. *)
Definition last_n {A : Type} (n : nat) (l : list A) : list A :=
  drop (length l - n)%nat l.

(** [list.sort(key=...)]: a stable sort. [le a b] compares the keys.
    Insertion from the right keeps equal keys in their original order, and
    a stable sort has only one possible output. *)
Section Sort.
Context {A : Type} (le : A -> A -> bool).

Fixpoint insert_sorted (x : A) (l : list A) : list A :=
  match l with
  | [] => [x]
  | y :: l' => if le x y then x :: y :: l' else y :: insert_sorted x l'
  end.

Fixpoint sort (l : list A) : list A :=
  match l with
  | [] => []
  | x :: l' => insert_sorted x (sort l')
  end.
End Sort.

End Py.

Import Py.

(* ===================================================================== *)
(** ** scheduler.py: the data classes *)
(* ===================================================================== *)

Module UnitState.
Record t : Type := mk {
  id : Z;
  enabled : bool;
  group : string;               (* "A" | "B" *)
  momentary : string;           (* "M1" | "M2" | "M3" | "None" *)
  offset : Z;                   (* legacy %, not used by the planner *)
  perDelayMs : Z;
  mode : string;                (* "inherit" | "flow" | "timed" *)
  pulsesPerCycle : Z;
  msPerMl : float
}.
End UnitState.

Module MomentaryCfg.
Record t : Type := mk {
  enabled : bool;
  offset : Z
}.
End MomentaryCfg.

Module AutoDelay.
Record t : Type := mk {
  enabled : bool;
  manualMs : Z;
  geomLeadMs : Z;
  currentMs : Z
}.
End AutoDelay.

Module BrainStateView.
Record t : Type := mk {
  targetMl : Z;
  deliveryMode : string;        (* "flow" | "timed" *)
  autoDelay : AutoDelay.t;
  momentary : gmap string MomentaryCfg.t;
  units : list UnitState.t
}.
End BrainStateView.

(** The [mode_dict] of a schedule entry:
    [{"mode":"timed", "ms_per_ml": _, "target_ml": _}] or
    [{"mode":"flow", "pulses": _, "target_ml": _}]. *)
Inductive mode_info : Type :=
| TimedInfo (ms_per_ml : float) (target_ml : Z)
| FlowInfo (pulses : Z) (target_ml : Z).

(** A schedule entry: the tuple [(unit_id, start_ms, duration_ms, mode_dict)]. *)
Definition entry : Type := Z * Z * option Z * mode_info.

Definition entry_id (e : entry) : Z := e.1.1.1.          (* e[0] *)
Definition entry_start (e : entry) : Z := e.1.1.2.       (* e[1] *)
Definition entry_duration (e : entry) : option Z := e.1.2. (* e[2] *)
Definition entry_mode (e : entry) : mode_info := e.2.    (* e[3] *)

(* ===================================================================== *)
(** ** scheduler.py: helpers *)
(* ===================================================================== *)

(** Map momentary offset % to ms using 0..100 -> 0..1000 ms. With the typed
    fields of [MomentaryCfg] nothing in the body raises, so the [except]
    branch is never taken. *)
Definition _momentary_ms (m : gmap string MomentaryCfg.t) (name : string) : Z :=
  match m !! str_or name "" with
  | None => 0
  | Some cfg =>
      let pct := Z.max 0 (Z.min 100 (MomentaryCfg.offset cfg)) in
      pct * 10
  end.

Definition _pattern_base_ms (pattern : string) (unit : UnitState.t)
    (auto : AutoDelay.t) (diagonal_step_ms : Z) : Z :=
  if String.eqb pattern "diamond" then
    if String.eqb (UnitState.group unit) "A" then 0
    else Z.max 0 (AutoDelay.currentMs auto)
  else if String.eqb pattern "diagonal" then
    Z.max 0 ((UnitState.id unit - 1) * diagonal_step_ms)
  else 0.

Definition _inherit_mode (global_mode unit_mode : string) : string :=
  if String.eqb unit_mode "flow" || String.eqb unit_mode "timed"
  then unit_mode else global_mode.

(* ===================================================================== *)
(** ** scheduler.py: the Scheduler class *)
(* ===================================================================== *)

Record Scheduler : Type := mkScheduler {
  _state_fn : BrainStateView.t;   (* the snapshot [state_fn()] supplies *)
  _tram_off : Z -> bool;
  _pattern : string
}.

Definition set_pattern (self : Scheduler) (p : string) : Scheduler :=
  mkScheduler (_state_fn self) (_tram_off self) p.

(** The local [per] of [_unit_fire_ms]: the unit's delay after the two
    Diamond re-safety clamps. *)
Definition clamped_per (self : Scheduler) (unit : UnitState.t)
    (st : BrainStateView.t) : Z :=
  let per := int_or (UnitState.perDelayMs unit) 0 in
  let per :=
    if String.eqb (_pattern self) "diamond"
       && String.eqb (UnitState.group unit) "B"
    then
      let min_neg := - Z.max 0 (AutoDelay.currentMs (BrainStateView.autoDelay st)) in
      if per <? min_neg then min_neg else per
    else per in
  let per :=
    if String.eqb (_pattern self) "diamond"
       && String.eqb (UnitState.group unit) "A"
    then (if per <? 0 then 0 else per)
    else per in
  per.

Definition _unit_fire_ms (self : Scheduler) (base_ms : Z) (unit : UnitState.t)
    (st : BrainStateView.t) : Z :=
  let base := _pattern_base_ms (_pattern self) unit (BrainStateView.autoDelay st) 80 in
  let mom := _momentary_ms (BrainStateView.momentary st) (UnitState.momentary unit) in
  let per := clamped_per self unit st in
  base_ms + base + mom + per.

Definition _duration_and_mode (unit : UnitState.t) (st : BrainStateView.t)
    : result (option Z * mode_info) :=
  let target := Z.max 1 (BrainStateView.targetMl st) in
  let mode := _inherit_mode (BrainStateView.deliveryMode st) (UnitState.mode unit) in
  if String.eqb mode "timed" then
    let ms_per_ml :=
      max_float 0x1.999999999999ap-4%float
                (float_or (UnitState.msPerMl unit) 5%float) in
    t ← float_of_int target;
    dur ← round (t * ms_per_ml)%float;
    Ok (Some dur, TimedInfo ms_per_ml target)
  else
    let pulses := Z.max 1 (int_or (UnitState.pulsesPerCycle unit) 100) in
    Ok (None, FlowInfo pulses target).

(** The test of the pressed-switch filter; its branch is [pass]. *)
Definition pressed_filter (pressed_m : option string) (u : UnitState.t) : bool :=
  ostr_truthy pressed_m
  && str_truthy (UnitState.momentary u)
  && str_ne_ostr (UnitState.momentary u) pressed_m.

(** One turn of the [for u in st.units] loop, on the list [out] built so far. *)
Definition plan_step (self : Scheduler) (st : BrainStateView.t) (t0 : Z)
    (pressed_m : option string) (out : list entry) (u : UnitState.t)
    : result (list entry) :=
  if negb (UnitState.enabled u) then Ok out
  else if _tram_off self (UnitState.id u) then Ok out
  else
    let out := if pressed_filter pressed_m u then out else out in
    let start_ms := _unit_fire_ms self t0 u st in
    dm ← _duration_and_mode u st;
    Ok (out ++ [(UnitState.id u, start_ms, dm.1, dm.2)]).

Fixpoint plan_loop (self : Scheduler) (st : BrainStateView.t) (t0 : Z)
    (pressed_m : option string) (us : list UnitState.t) (out : list entry)
    : result (list entry) :=
  match us with
  | [] => Ok out
  | u :: us' =>
      out' ← plan_step self st t0 pressed_m out u;
      plan_loop self st t0 pressed_m us' out'
  end.

(** The sort key [(e[1], e[0])], compared as Python compares tuples. *)
Definition entry_le (a b : entry) : bool :=
  (entry_start a <? entry_start b)
  || ((entry_start a =? entry_start b) && (entry_id a <=? entry_id b)).

(** [plan_cycle(now_ms, pressed_m)]; [clock] is what [_now_ms()] would read. *)
Definition plan_cycle (self : Scheduler) (clock : Z) (now_ms : option Z)
    (pressed_m : option string) : result (list entry) :=
  let st := _state_fn self in
  let t0 := match now_ms with Some t => t | None => clock end in
  out ← plan_loop self st t0 pressed_m (BrainStateView.units st) [];
  Ok (sort entry_le out).

(* ===================================================================== *)
(** ** server.py: the Hub state, press recording and the auto-delay tick *)
(* ===================================================================== *)

(** The ["autoDelay"] dict of the Hub state. A key may be missing, and the
    loop reads each one through [ad.get(key, default)]. *)
Module AutoDelayDict.
Record t : Type := mk {
  enabled : option bool;
  manualMs : option Z;
  geomLeadMs : option Z;
  currentMs : option Z
}.

Definition get_enabled (ad : t) : bool := default true (enabled ad).
Definition get_manualMs (ad : t) : Z := default 500 (manualMs ad).
Definition get_geomLeadMs (ad : t) : Z := default 0 (geomLeadMs ad).

(** [ad["currentMs"] = v] *)
Definition set_currentMs (ad : t) (v : Z) : t :=
  mk (enabled ad) (manualMs ad) (geomLeadMs ad) (Some v).
End AutoDelayDict.

Module Hub.

(** The part of [self.state] the two loops below touch. *)
Record state : Type := mk {
  autoDelay : AutoDelayDict.t;
  pressHistory : list float     (* [time.time()] stamps, in seconds *)
}.

(** What a loop turn does besides updating the state. *)
Inductive effect : Type :=
| SaveState
| SendAutoDelay (value : Z).

(** [cycle_loop], the two statements that record the synthetic press:
    [pressHistory.append(now)] and [pressHistory = pressHistory[-20:]]. *)
Definition record_press (now : float) (st : state) : state :=
  mk (autoDelay st) (last_n 20 (pressHistory st ++ [now])).

(** [[p for p in pressHistory if time.time() - p < 15]]; the clock is read
    once per turn in the model. *)
Definition recent (now : float) (ph : list float) : list float :=
  filter (fun p => PrimFloat.ltb (now - p)%float 15%float = true) ph.

(** [[ph[i] - ph[i-1] for i in range(1, len(ph))]] *)
Fixpoint intervals (ph : list float) : list float :=
  match ph with
  | a :: (b :: _) as tl => (b - a)%float :: intervals tl
  | _ => []
  end.

(** [sum(xs)]: additions from the left, starting from 0. (CPython from
    3.12 on also carries a compensation term for the rounding error; on
    stamps whose differences add up exactly, as in every example below, the
    two agree.) *)
Definition sum (xs : list float) : float :=
  fold_left (fun acc x => (acc + x)%float) xs 0%float.

(** [sum(intervals) / len(intervals)] *)
Definition mean (xs : list float) : result float :=
  n ← float_of_int (Z.of_nat (length xs));
  Ok (sum xs / n)%float.

(** The cadence-derived delay [max(0, int(avg*1000/2))] of a turn with at
    least three recent presses. *)
Definition cadence_ms (ph : list float) : result Z :=
  avg ← mean (intervals ph);
  h ← int_of_float (avg * 1000 / 2)%float;
  Ok (Z.max 0 h).

(** Store [v] as the current delay if it differs from the stored one,
    saving and broadcasting only in that case. *)
Definition publish (v : Z) (st : state) : state * list effect :=
  if bool_decide (AutoDelayDict.currentMs (autoDelay st) = Some v)
  then (st, [])
  else (mk (AutoDelayDict.set_currentMs (autoDelay st) v) (pressHistory st),
        [SaveState; SendAutoDelay v]).

(** One turn of [_auto_delay_loop] after its sleep, at clock reading [now]. *)
Definition _auto_delay_tick (now : float) (st : state)
    : result (state * list effect) :=
  let ad := autoDelay st in
  if negb (AutoDelayDict.get_enabled ad) then
    let cur := AutoDelayDict.get_manualMs ad + AutoDelayDict.get_geomLeadMs ad in
    let cur := Z.max 0 cur in
    Ok (publish cur st)
  else
    let ph := recent now (pressHistory st) in
    b ← (if (3 <=? length ph)%nat then cadence_ms ph
         else Ok (AutoDelayDict.get_manualMs ad));
    let b := b + AutoDelayDict.get_geomLeadMs ad in
    let b := Z.max 0 b in
    Ok (publish b st).

End Hub.

(* ===================================================================== *)
(** ** io_gpio.py: pulse counter and timed output drive *)
(* ===================================================================== *)

Module GPIO.

(** The fields of [BaseGPIO] used here. *)
Record t : Type := mk {
  mapping_units : gmap Z Z;     (* mapping["units"]: unit id -> pin *)
  _pulse_count : Z
}.

(** [get_pulses_and_reset]: the returned count and the object afterwards. *)
Definition get_pulses_and_reset (self : t) : Z * t :=
  let c := _pulse_count self in
  (c, mk (mapping_units self) 0).

(** [_flow_cb]: one pulse edge. *)
Definition _flow_cb (self : t) : t :=
  mk (mapping_units self) (_pulse_count self + 1).

Definition _simulate_flow_pulse (self : t) (n : Z) : t :=
  mk (mapping_units self) (_pulse_count self + n).

(** The output pins as [RPi.GPIO] holds them: the level of each pin and
    the log of [RGPIO.output] calls, oldest first. *)
Record pins : Type := mkPins {
  level : gmap Z bool;
  calls : list (Z * bool)
}.

Definition HIGH : bool := true.
Definition LOW : bool := false.

(** A coroutine body: it transforms the pins and returns or raises. *)
Definition io (A : Type) : Type := pins -> pins * result A.

#[global] Instance io_ret : MRet io := fun A (a : A) (h : pins) => (h, Ok a).
#[global] Instance io_bind : MBind io :=
  fun A B (f : A -> io B) (c : io A) (h : pins) =>
    match c h with
    | (h', Ok a) => f a h'
    | (h', Raise e) => (h', Raise e)
    end.

Definition lift {A : Type} (r : result A) : io A := fun h => (h, r).

(** [RGPIO.output(pin, lvl)] *)
Definition output (pin : Z) (lvl : bool) : io unit :=
  fun h => (mkPins (<[pin := lvl]> (level h)) (calls h ++ [(pin, lvl)]), Ok tt).

(** [try: body finally: fin]. The finalizer runs whatever the body did;
    the body's outcome stands unless the finalizer itself raises. *)
Definition try_finally {A : Type} (body : io A) (fin : io unit) : io A :=
  fun h =>
    match body h with
    | (h1, r) =>
        match fin h1 with
        | (h2, Ok _) => (h2, r)
        | (h2, Raise e) => (h2, Raise e)
        end
    end.

(** How an [await asyncio.sleep(_)] ends: the delay elapses, or an
    exception is thrown into the coroutine at the await (cancellation
    throws [CancelledError]). *)
Inductive sleep_outcome : Type :=
| Elapsed
| Thrown (e : exn).

Definition asyncio_sleep (o : sleep_outcome) (secs : float) : io unit :=
  match o with
  | Elapsed => lift (Ok tt)
  | Thrown e => lift (Raise e)
  end.

(** [ms / 1000.0] *)
Definition ms_to_secs (ms : Z) : result float :=
  f ← float_of_int ms;
  Ok (f / 1000)%float.

(** [RPiGPIO.open_unit_for(unit_id, ms)], its sleep ending as [o] says. *)
Definition open_unit_for (self : t) (o : sleep_outcome) (unit_id ms : Z)
    : io unit :=
  match mapping_units self !! unit_id with
  | None =>
      secs ← lift (ms_to_secs ms);
      asyncio_sleep o secs
  | Some pin =>
      _ ← output pin HIGH;
      try_finally
        (secs ← lift (ms_to_secs (Z.max 0 ms));
         asyncio_sleep o secs)
        (output pin LOW)
  end.

End GPIO.

(* ===================================================================== *)
(** ** Reading the planner loop as a comprehension *)
(* ===================================================================== *)

(** A unit takes part in a cycle when it is enabled and not tramlined off:
    the two [continue] guards of the loop. *)
Definition scheduled (self : Scheduler) (u : UnitState.t) : bool :=
  UnitState.enabled u && negb (_tram_off self (UnitState.id u)).

(** The tuple the loop appends for a unit that passes the guards. *)
Definition unit_entry (self : Scheduler) (st : BrainStateView.t) (t0 : Z)
    (u : UnitState.t) : result entry :=
  dm ← _duration_and_mode u st;
  Ok (UnitState.id u, _unit_fire_ms self t0 u st, dm.1, dm.2).

(** Order on the sort key [(start_ms, unit_id)]. *)
Definition key_le (a b : entry) : Prop :=
  entry_start a < entry_start b
  \/ (entry_start a = entry_start b /\ entry_id a <= entry_id b).

(** Two entries carry the same sort key. *)
Definition same_key (x y : entry) : bool := entry_le x y && entry_le y x.

(* ===================================================================== *)
(** ** What the specification claims, where it differs from the code *)
(* ===================================================================== *)

(** The timed duration as the specification words it:
    [round(target_ml * ms_per_ml)] with [target_ml] floored at 1 and
    [ms_per_ml] floored at 0.1. *)
Definition claimed_timed_duration (target_ml : Z) (ms_per_ml : float) : result Z :=
  t ← float_of_int (Z.max 1 target_ml);
  round (t * max_float 0x1.999999999999ap-4%float ms_per_ml)%float.

(** [round(n / d)] for ints [n] and a positive int [d], ties to even. *)
Definition round_ratio (n d : Z) : Z :=
  let q := n / d in
  let r := n mod d in
  if 2 * r <? d then q
  else if d <? 2 * r then q + 1
  else if Z.even q then q else q + 1.

(** The flow target as the specification words it:
    [round(target_ml * pulses_per_liter / 1000)], capped at the unit's
    pulses-per-cycle. *)
Definition claimed_target_pulses (target_ml pulses_per_liter pulses_per_cycle : Z) : Z :=
  Z.min (round_ratio (Z.max 1 target_ml * pulses_per_liter) 1000)
        (Z.max 1 pulses_per_cycle).

(** The momentary offset as the specification words it: the clamped
    percentage times 10 ms, and 0 for a missing or a disabled switch. *)
Definition claimed_momentary_ms (m : gmap string MomentaryCfg.t) (name : string) : Z :=
  match m !! name with
  | None => 0
  | Some cfg =>
      if MomentaryCfg.enabled cfg
      then Z.max 0 (Z.min 100 (MomentaryCfg.offset cfg)) * 10
      else 0
  end.

(** The cadence branch of the estimator as the specification words it:
    [max(0, round(mean_interval_ms / 2) + geom_lead_ms)]. *)
Definition claimed_cadence_current (ph : list float) (geom_lead_ms : Z) : result Z :=
  avg ← Hub.mean (Hub.intervals ph);
  r ← round (avg * 1000 / 2)%float;
  Ok (Z.max 0 (r + geom_lead_ms)).

(** How the timed drive of a mapped unit ends: the exception of a duration
    that cannot be converted, else the outcome of the sleep. *)
Definition drive_result (o : GPIO.sleep_outcome) (ms : Z) : result unit :=
  match GPIO.ms_to_secs (Z.max 0 ms) with
  | Raise e => Raise e
  | Ok _ => match o with GPIO.Elapsed => Ok tt | GPIO.Thrown e => Raise e end
  end.

(** An entry of the press history lies within the 15-second trailing window. *)
Definition within_window (now p : float) : bool :=
  PrimFloat.ltb (now - p)%float 15%float.

(* ===================================================================== *)
(** ** Concrete inputs *)
(* ===================================================================== *)

Module Ex.

(** The first four units of [default_state()], group A/B alternating. *)
Definition unit (i : Z) (grp md : string) (per : Z) (ms : float) : UnitState.t :=
  UnitState.mk i true grp "M1" 0 per md 100 ms.

Definition momentary : gmap string MomentaryCfg.t :=
  {[ "M1" := MomentaryCfg.mk true 0;
     "M2" := MomentaryCfg.mk false 0;
     "M3" := MomentaryCfg.mk false 0 ]}.

Definition auto : AutoDelay.t := AutoDelay.mk true 500 0 500.

Definition view (mode : string) (us : list UnitState.t) : BrainStateView.t :=
  BrainStateView.mk 100 mode auto momentary us.

Definition units4 : list UnitState.t :=
  [ unit 1 "A" "inherit" 0 5; unit 2 "B" "inherit" (-700) 5;
    unit 3 "A" "timed" (-20) 5; unit 4 "B" "flow" 30 5 ]%float.

(** Unit 3 is tramlined off. *)
Definition sched : Scheduler :=
  mkScheduler (view "timed" units4) (fun i => i =? 3) "diamond".

(** The plan of [sched] for a press at 1000 ms: unit 2 is clamped to
    -500 ms and ties with unit 1, unit 3 is left out. *)
Definition plan4 : list entry :=
  [ (1, 1000, Some 500, TimedInfo 5 100);
    (2, 1000, Some 500, TimedInfo 5 100);
    (4, 1530, None, FlowInfo 100 100) ].

(** A snapshot whose stored delay is negative. *)
Definition view_negative : BrainStateView.t :=
  BrainStateView.mk 100 "flow" (AutoDelay.mk true 500 0 (-100)) momentary
    [unit 2 "B" "inherit" (-50) 5%float].

Definition sched_negative : Scheduler :=
  mkScheduler view_negative (fun _ => false) "diamond".

(** A timed unit whose [msPerMl] is zero. *)
Definition unit_zero_ms : UnitState.t := unit 1 "A" "timed" 0 0%float.

(** A switch that is disabled but carries an offset of 50 %. *)
Definition momentary_disabled : gmap string MomentaryCfg.t :=
  {[ "M1" := MomentaryCfg.mk false 50 ]}.

(** Three presses, 1 s and 1.0078125 s apart, read 1 s after the last. *)
Definition hub_cadence : Hub.state :=
  Hub.mk (AutoDelayDict.mk (Some true) (Some 500) (Some 0) (Some 500))
         [1700000000; 1700000001; 1700000002.0078125]%float.

Definition now_cadence : float := 1700000003%float.

(** One old press in the history. *)
Definition hub_old : Hub.state :=
  Hub.mk (AutoDelayDict.mk (Some true) (Some 500) (Some 0) (Some 500))
         [1700000000%float].

Definition now_old : float := 1700000100%float.

(** Unit 1 wired to pin 12. *)
Definition gpio : GPIO.t := GPIO.mk {[ 1 := 12 ]} 0.

Definition pins0 : GPIO.pins := GPIO.mkPins ∅ [].

End Ex.

(* ===================================================================== *)
(** ** scheduler.py: views of a plan *)
(* ===================================================================== *)

(** The value a call returns, transformed; an exception passes through. *)
Definition map_result {A B : Type} (f : A -> B) (r : result A) : result B :=
  match r with
  | Ok a => Ok (f a)
  | Raise e => Raise e
  end.

(** An entry moved [d] ms later. *)
Definition shift_entry (d : Z) (e : entry) : entry :=
  (entry_id e, entry_start e + d, entry_duration e, entry_mode e).

(** What an entry says besides its start time. *)
Definition entry_core (e : entry) : Z * option Z * mode_info :=
  (entry_id e, entry_duration e, entry_mode e).

(** The scheduler whose tramline test also answers true for unit [k]. *)
Definition tram_also (self : Scheduler) (k : Z) : Scheduler :=
  mkScheduler (_state_fn self) (fun i => _tram_off self i || (i =? k)) (_pattern self).

(* ===================================================================== *)
(** ** io_gpio.py: the buzzer and sequences of calls *)
(* ===================================================================== *)

(** [RPiGPIO.buzzer(on, ms)], with [buzzer_pin] what [mapping.get("buzzer")]
    returns and the sleep ending as [o] says. *)
Definition RPiGPIO_buzzer (buzzer_pin : option Z) (o : GPIO.sleep_outcome)
    (on : bool) (ms : option Z) : GPIO.io unit :=
  match buzzer_pin with
  | None =>
      match ms with
      | Some d =>
          if d =? 0 then mret tt
          else (secs ← GPIO.lift (GPIO.ms_to_secs d); GPIO.asyncio_sleep o secs)
      | None => mret tt
      end
  | Some pin =>
      match ms with
      | None => GPIO.output pin (if on then GPIO.HIGH else GPIO.LOW)
      | Some d =>
          _ ← GPIO.output pin GPIO.HIGH;
          GPIO.try_finally
            (secs ← GPIO.lift (GPIO.ms_to_secs (Z.max 0 d));
             GPIO.asyncio_sleep o secs)
            (GPIO.output pin GPIO.LOW)
      end
  end.






(** What happens to the pulse counter, in program order. *)
Inductive pulse_op : Type :=
| FlowEdge                        (* [_flow_cb] *)
| SimulatePulses (n : Z)          (* [_simulate_flow_pulse(n)] *)
| ReadReset.                      (* [get_pulses_and_reset()] *)

(** The counter after the operations and the counts the reads returned. *)
Fixpoint run_pulse_ops (ops : list pulse_op) (self : GPIO.t) : GPIO.t * list Z :=
  match ops with
  | [] => (self, [])
  | FlowEdge :: ops' => run_pulse_ops ops' (GPIO._flow_cb self)
  | SimulatePulses n :: ops' => run_pulse_ops ops' (GPIO._simulate_flow_pulse self n)
  | ReadReset :: ops' =>
      let cr := GPIO.get_pulses_and_reset self in
      let r := run_pulse_ops ops' cr.2 in
      (r.1, cr.1 :: r.2)
  end.

(** The pulses the operations deliver. *)
Fixpoint pulses_of (ops : list pulse_op) : Z :=
  match ops with
  | [] => 0
  | FlowEdge :: ops' => 1 + pulses_of ops'
  | SimulatePulses n :: ops' => n + pulses_of ops'
  | ReadReset :: ops' => pulses_of ops'
  end.

Definition sum_Z (l : list Z) : Z := fold_right Z.add 0 l.

(* ===================================================================== *)
(** ** server.py: the event log, the unit setters and the tramline *)
(* ===================================================================== *)

(** [l[start:]] for an int [start]: a negative start counts from the end,
    and either way it is clipped to the list. *)
Definition slice_from {A : Type} (start : Z) (l : list A) : list A :=
  let n := Z.of_nat (length l) in
  let s := if start <? 0 then Z.max 0 (start + n) else Z.min start n in
  drop (Z.to_nat s) l.

(** An entry [{"t": t, "msg": msg}] of the event log. *)
Definition event : Type := Z * string.

(** [log_event(st, msg)] on the event log, at clock reading [t] (ms):
    keep up to 100 recent entries. *)
Definition log_event (t : Z) (msg : string) (eventLog : list event) : list event :=
  let eventLog := eventLog ++ [(t, msg)] in
  if (100 <? length eventLog)%nat then slice_from (-100) eventLog else eventLog.

(** A unit dict of the Hub state, with the keys [default_state()] gives it. *)
Module UnitDict.
Record t : Type := mk {
  id : Z;
  enabled : bool;
  group : string;
  momentary : string;
  offset : Z;
  perDelayMs : Z;
  lastDeliveredMl : option Z;
  deviation : option float;
  status : string;
  pulsesPerCycle : Z;
  pulsesPerLiter : Z;
  msPerMl : float;
  mode : string
}.
End UnitDict.

(** The units of [default_state()]: ids 1..11, the first four enabled,
    groups A and B alternating. *)
Definition default_unit (i : Z) : UnitDict.t :=
  UnitDict.mk (i + 1) (i <? 4) (if i mod 2 =? 0 then "A" else "B") "M1" 0 0
              None None "OK" 100 450 5%float "inherit".

Definition default_units : list UnitDict.t :=
  default_unit <$> [0; 1; 2; 3; 4; 5; 6; 7; 8; 9; 10].

(** The per-unit keys of a ["set"] message, each with its value after the
    conversion ([bool(_)], [int(_)], [float(_)]) the branch applies. In the
    source the [elif] of the ["unit-msperml"] branch stands at the first
    column while its body is indented like the other branches; it is read
    here as one more branch of the same chain. *)
Inductive unit_key : Type :=
| UnitEnabled (v : bool)          (* "unit-enabled" *)
| UnitMomentary (v : string)      (* "unit-momentary" *)
| UnitGroup (v : string)          (* "unit-group" *)
| UnitOffset (v : Z)              (* "unit-offset" *)
| UnitDelayMs (v : Z)             (* "unit-delay-ms" *)
| UnitDeliveryMode (v : string)   (* "unit-delivery-mode" *)
| UnitPpc (v : Z)                 (* "unit-ppc" *)
| UnitKfactor (v : Z)             (* "unit-kfactor" *)
| UnitMsPerMl (v : float).        (* "unit-msperml" *)

(** The assignment a branch makes to a unit whose id matches. The int 1
    that [max(1, float(v))] may return is kept as the float it equals. *)
Definition assign_unit (k : unit_key) (u : UnitDict.t) : UnitDict.t :=
  let '(UnitDict.mk i en g mo off per last dev stat ppc ppl ms md) := u in
  match k with
  | UnitEnabled v => UnitDict.mk i v g mo off per last dev stat ppc ppl ms md
  | UnitMomentary v => UnitDict.mk i en g v off per last dev stat ppc ppl ms md
  | UnitGroup v =>
      UnitDict.mk i en (if String.eqb v "A" then "A" else "B")
                  mo off per last dev stat ppc ppl ms md
  | UnitOffset v =>
      UnitDict.mk i en g mo (Z.max 0 (Z.min 100 v)) per last dev stat ppc ppl ms md
  | UnitDelayMs v => UnitDict.mk i en g mo off v last dev stat ppc ppl ms md
  | UnitDeliveryMode v =>
      UnitDict.mk i en g mo off per last dev stat ppc ppl ms
                  (if String.eqb v "inherit" || String.eqb v "flow"
                      || String.eqb v "timed"
                   then v else "inherit")
  | UnitPpc v => UnitDict.mk i en g mo off per last dev stat (Z.max 1 v) ppl ms md
  | UnitKfactor v => UnitDict.mk i en g mo off per last dev stat ppc (Z.max 1 v) ms md
  | UnitMsPerMl v =>
      UnitDict.mk i en g mo off per last dev stat ppc ppl (max_float 1%float v) md
  end.

(** [for u in self.state["units"]: if u["id"] == uid: u[...] = ...] *)
Definition set_unit (uid : Z) (k : unit_key) (units : list UnitDict.t)
    : list UnitDict.t :=
  (fun u => if UnitDict.id u =? uid then assign_unit k u else u) <$> units.

(** A run of per-unit ["set"] messages, oldest first. *)
Definition set_units (msgs : list (Z * unit_key)) (units : list UnitDict.t)
    : list UnitDict.t :=
  fold_left (fun us m => set_unit m.1 m.2 us) msgs units.

(** The ranges the validating branches enforce. *)
Definition unit_in_range (u : UnitDict.t) : Prop :=
  0 <= UnitDict.offset u <= 100
  /\ 1 <= UnitDict.pulsesPerCycle u
  /\ 1 <= UnitDict.pulsesPerLiter u
  /\ (UnitDict.group u = "A" \/ UnitDict.group u = "B")%string
  /\ (UnitDict.mode u = "inherit" \/ UnitDict.mode u = "flow"
      \/ UnitDict.mode u = "timed")%string.

(** The ["tram"] message on the tramline dict; [uid] is [str(m.get("id"))]
    and [off] is [bool(m.get("off"))]. The entry is stored, then every false
    entry is popped. *)
Definition handle_tram (uid : string) (off : bool) (tramline : gmap string bool)
    : gmap string bool :=
  filter (fun kv => kv.2 = true) (<[uid := off]> tramline).

(** The ["tram-clear"] message. *)
Definition handle_tram_clear (tramline : gmap string bool) : gmap string bool := ∅.

(** The tramline test of [cycle_loop]:
    [tramline.get(str(u["id"])) or tramline.get(u["id"])]. The keys of the
    dict are strs, so the lookup under the int finds nothing. *)
Definition tram_guard (tramline : gmap string bool) (unit_id : Z) : bool :=
  default false (tramline !! pretty unit_id) || false.

(** The value part of a ["set"] / ["auto-delay"] message. *)
Record auto_delay_cfg : Type := mkAutoDelayCfg {
  cfg_enabled : option bool;
  cfg_manualMs : option Z;
  cfg_geomLeadMs : option Z
}.

(** The ["auto-delay"] branch: the updated dict and the value broadcast. *)
Definition set_auto_delay (cfg : auto_delay_cfg) (ad : AutoDelayDict.t)
    : AutoDelayDict.t * Z :=
  let en := default (AutoDelayDict.get_enabled ad) (cfg_enabled cfg) in
  let manual := match cfg_manualMs cfg with
                | Some v => Some v
                | None => AutoDelayDict.manualMs ad
                end in
  let geom := match cfg_geomLeadMs cfg with
              | Some v => Some v
              | None => AutoDelayDict.geomLeadMs ad
              end in
  let ad' := AutoDelayDict.mk (Some en) manual geom (AutoDelayDict.currentMs ad) in
  let cur := if negb (AutoDelayDict.get_enabled ad')
             then AutoDelayDict.get_manualMs ad'
             else default 500 (AutoDelayDict.currentMs ad') in
  (ad', cur).

(** The delay a turn of [_auto_delay_loop] computes, before it is compared
    with the stored one. *)
Definition tick_value (now : float) (st : Hub.state) : result Z :=
  let ad := Hub.autoDelay st in
  if negb (AutoDelayDict.get_enabled ad) then
    Ok (Z.max 0 (AutoDelayDict.get_manualMs ad + AutoDelayDict.get_geomLeadMs ad))
  else
    let ph := Hub.recent now (Hub.pressHistory st) in
    b ← (if (3 <=? length ph)%nat then Hub.cadence_ms ph
         else Ok (AutoDelayDict.get_manualMs ad));
    Ok (Z.max 0 (b + AutoDelayDict.get_geomLeadMs ad)).

(** Presses recorded one after the other by [cycle_loop]. *)
Definition record_presses (stamps : list float) (st : Hub.state) : Hub.state :=
  fold_left (fun s p => Hub.record_press p s) stamps st.

(* ===================================================================== *)
(** ** JSON values and the dict operations of the state modules *)
(* ===================================================================== *)

(** What [json.loads] returns. *)
Module Json.
#[warnings="-register-all"]
Inductive t : Type :=
| Null
| Bool (b : bool)
| Int (z : Z)
| Float (f : float)
| Str (s : string)
| List (l : list t)
| Dict (d : gmap string t).
End Json.

(** [d.setdefault(k, v)], also [if k not in d: d[k] = v]. *)
Definition setdefault (k : string) (v : Json.t) (d : gmap string Json.t)
    : gmap string Json.t :=
  match d !! k with
  | Some _ => d
  | None => <[k := v]> d
  end.

(** A run of [setdefault] calls, in order. *)
Definition setdefaults (kvs : list (string * Json.t)) (d : gmap string Json.t)
    : gmap string Json.t :=
  fold_left (fun d kv => setdefault kv.1 kv.2 d) kvs d.

(** [needle in j] for a str [needle]: a key of a dict, a substring of a str,
    an item of a list; any other value is not a container and the test
    raises. *)
Definition json_in (needle : string) (j : Json.t) : result bool :=
  match j with
  | Json.Dict d => Ok (bool_decide (is_Some (d !! needle)))
  | Json.Str s => Ok (bool_decide (is_Some (index 0 needle s)))
  | Json.List l =>
      Ok (existsb (fun x => match x with
                            | Json.Str s => String.eqb s needle
                            | _ => false
                            end) l)
  | _ => Raise OtherError
  end.

(** The items [for u in j] visits: the items of a list, the keys of a dict,
    the characters of a str; any other value is not iterable. The keys of a
    dict come in no particular order here; the loops below treat every str
    item alike. *)
Definition json_iter (j : Json.t) : result (list Json.t) :=
  match j with
  | Json.List l => Ok l
  | Json.Dict d => Ok (Json.Str <$> (map_to_list d).*1)
  | Json.Str s => Ok ((fun c => Json.Str (String c "")) <$> list_ascii_of_string s)
  | _ => Raise OtherError
  end.

(** [for u in j: f(u)] where [f] updates a dict item in place: a list ends up
    holding the updated items; the items of anything else are strs, which
    [f] can only accept as they are or reject. *)
Definition for_items (f : Json.t -> result Json.t) (j : Json.t) : result Json.t :=
  match j with
  | Json.List l => l' ← mapM f l; Ok (Json.List l')
  | _ => items ← json_iter j; _ ← mapM f items; Ok j
  end.

(** [for u in st.get("units", []): f(u)] on the state dict. *)
Definition for_units (f : Json.t -> result Json.t) (st : gmap string Json.t)
    : result (gmap string Json.t) :=
  match st !! "units" with
  | None => Ok st
  | Some j => j' ← for_items f j; Ok (<["units" := j']> st)
  end.

(** [if k not in u: u[k] = v] on an item [u] of any type. *)
Definition ensure_key (k : string) (v : Json.t) (u : Json.t) : result Json.t :=
  json_in k u ≫= fun b : bool =>
  if b then Ok u
  else match u with
       | Json.Dict d => Ok (Json.Dict (<[k := v]> d))
       | _ => Raise OtherError
       end.

Section IntOfStr.
(** [int(s)] of a str, left open: the properties below hold however a str
    parses. *)
Variable int_of_str : string -> result Z.

(** [int(j)] *)
Definition json_int (j : Json.t) : result Z :=
  match j with
  | Json.Int z => Ok z
  | Json.Bool b => Ok (if b then 1 else 0)
  | Json.Float f => int_of_float f
  | Json.Str s => int_of_str s
  | _ => Raise OtherError
  end.

(** [if "currentMs" not in ad: ad["currentMs"] = int(ad.get("manualMs", 500))] *)
Definition normalize_auto (ad : Json.t) : result Json.t :=
  json_in "currentMs" ad ≫= fun b : bool =>
  if b then Ok ad
  else match ad with
       | Json.Dict d =>
           v ← json_int (default (Json.Int 500) (d !! "manualMs"));
           Ok (Json.Dict (<["currentMs" := Json.Int v]> d))
       | _ => Raise OtherError
       end.
End IntOfStr.

(** The default dicts the state modules share. *)
Definition default_momentary : Json.t :=
  Json.Dict {[ "M1" := Json.Dict {[ "enabled" := Json.Bool true; "offset" := Json.Int 0 ]};
               "M2" := Json.Dict {[ "enabled" := Json.Bool false; "offset" := Json.Int 0 ]};
               "M3" := Json.Dict {[ "enabled" := Json.Bool false; "offset" := Json.Int 0 ]} ]}.

Definition default_tramPresets : Json.t :=
  Json.Dict {[ "left" := Json.List []; "right" := Json.List []; "active" := Json.Null ]}.

Definition default_buzzer : Json.t :=
  Json.Dict {[ "muted" := Json.Bool false; "hardMute" := Json.Bool false ]}.

Definition default_autoDelay : Json.t :=
  Json.Dict {[ "enabled" := Json.Bool true; "manualMs" := Json.Int 500;
               "geomLeadMs" := Json.Int 0; "currentMs" := Json.Int 500 ]}.

Definition default_simulation : Json.t :=
  Json.Dict {[ "telemetry" := Json.Bool false; "full" := Json.Bool false ]}.

Definition unit_indices : list Z := [0; 1; 2; 3; 4; 5; 6; 7; 8; 9; 10].

(* ===================================================================== *)
(** ** state_store.py *)
(* ===================================================================== *)

Module StateStore.

(** The per-unit defaults of [_migrate], in the order it applies them. *)
Definition unit_defaults : list (string * Json.t) :=
  [ ("enabled", Json.Bool true); ("group", Json.Str "A");
    ("momentary", Json.Str "M1"); ("offset", Json.Int 0);
    ("perDelayMs", Json.Int 0); ("lastDeliveredMl", Json.Null);
    ("deviation", Json.Null); ("status", Json.Str "OK");
    ("pulsesPerCycle", Json.Int 100); ("msPerMl", Json.Float 5%float);
    ("mode", Json.Str "inherit") ].

(** One dict of [_default_units()]. *)
Definition default_unit (i : Z) : Json.t :=
  Json.Dict
    {[ "id" := Json.Int (i + 1);
       "enabled" := Json.Bool (i <? 4);
       "group" := Json.Str (if i mod 2 =? 0 then "A" else "B");
       "momentary" := Json.Str "M1";
       "offset" := Json.Int 0;
       "perDelayMs" := Json.Int 0;
       "lastDeliveredMl" := Json.Null;
       "deviation" := Json.Null;
       "status" := Json.Str "OK";
       "pulsesPerCycle" := Json.Int 100;
       "msPerMl" := Json.Float 5%float;
       "mode" := Json.Str "inherit" ]}.

Definition _default_units : Json.t := Json.List (default_unit <$> unit_indices).

(** The top-level defaults of [_migrate], in the order it applies them. *)
Definition top_defaults : list (string * Json.t) :=
  [ ("targetMl", Json.Int 100); ("running", Json.Bool false);
    ("deliveryMode", Json.Str "flow"); ("momentary", default_momentary);
    ("tramline", Json.Dict ∅); ("tramPresets", default_tramPresets);
    ("buzzer", default_buzzer); ("autoDelay", default_autoDelay);
    ("units", _default_units); ("eventLog", Json.List []);
    ("pressHistory", Json.List []); ("simulation", default_simulation);
    ("gpio", Json.Dict ∅) ].

Definition default_state : gmap string Json.t :=
  {[ "targetMl" := Json.Int 100;
     "running" := Json.Bool false;
     "deliveryMode" := Json.Str "flow";
     "momentary" := default_momentary;
     "tramline" := Json.Dict ∅;
     "tramPresets" := default_tramPresets;
     "buzzer" := default_buzzer;
     "autoDelay" := default_autoDelay;
     "units" := _default_units;
     "eventLog" := Json.List [];
     "pressHistory" := Json.List [];
     "simulation" := default_simulation;
     "gpio" := Json.Dict ∅ ]}.

(** The body of the unit loop of [_migrate]: [u.setdefault(...)], which only
    a dict has. *)
Definition migrate_unit (u : Json.t) : result Json.t :=
  match u with
  | Json.Dict d => Ok (Json.Dict (setdefaults unit_defaults d))
  | _ => Raise OtherError
  end.

Definition _migrate (int_of_str : string -> result Z) (st : gmap string Json.t)
    : result (gmap string Json.t) :=
  let st := setdefaults top_defaults st in
  st ← for_units migrate_unit st;
  match st !! "autoDelay" with
  | None => Raise OtherError
  | Some ad =>
      ad' ← normalize_auto int_of_str ad;
      Ok (<["autoDelay" := ad']> st)
  end.

(** [log_event(st, msg, max_keep)] on the event log, a missing log first
    set to the empty list, at clock reading [t] (ms). *)
Definition log_event (max_keep : Z) (t : Z) (msg : string)
    (eventLog : option (list event)) : list event :=
  let eventLog := default [] eventLog ++ [(t, msg)] in
  if max_keep <? Z.of_nat (length eventLog)
  then slice_from (- max_keep) eventLog
  else eventLog.

End StateStore.

(* ===================================================================== *)
(** ** server.py: default_state and load_state *)
(* ===================================================================== *)

Module ServerState.

Definition default_unit (i : Z) : Json.t :=
  Json.Dict
    {[ "id" := Json.Int (i + 1);
       "enabled" := Json.Bool (i <? 4);
       "group" := Json.Str (if i mod 2 =? 0 then "A" else "B");
       "momentary" := Json.Str "M1";
       "offset" := Json.Int 0;
       "perDelayMs" := Json.Int 0;
       "lastDeliveredMl" := Json.Null;
       "deviation" := Json.Null;
       "status" := Json.Str "OK";
       "pulsesPerCycle" := Json.Int 100;
       "pulsesPerLiter" := Json.Int 450;
       "msPerMl" := Json.Float 5%float;
       "mode" := Json.Str "inherit" ]}.

Definition default_state : gmap string Json.t :=
  {[ "targetMl" := Json.Int 100;
     "running" := Json.Bool false;
     "deliveryMode" := Json.Str "flow";
     "momentary" := default_momentary;
     "tramline" := Json.Dict ∅;
     "tramPresets" := default_tramPresets;
     "buzzer" := default_buzzer;
     "autoDelay" := default_autoDelay;
     "units" := Json.List (default_unit <$> unit_indices);
     "eventLog" := Json.List [];
     "pressHistory" := Json.List [];
     "simulation" := default_simulation ]}.

(** The number of turns the second unit loop of [load_state] takes. *)
Definition unit_turns (st : gmap string Json.t) : nat :=
  match st !! "units" with
  | None => 0%nat
  | Some j => match json_iter j with Ok items => length items | Raise _ => 0%nat end
  end.

(** The migration [load_state] applies to the dict it has parsed. *)
Definition migrate (st : gmap string Json.t) : result (gmap string Json.t) :=
  st ← for_units (ensure_key "perDelayMs" (Json.Int 0)) st;
  let st := setdefault "tramPresets" default_tramPresets st in
  let st := setdefault "buzzer" default_buzzer st in
  let st := setdefault "pressHistory" (Json.List []) st in
  st ← for_units (ensure_key "pulsesPerLiter" (Json.Int 450)) st;
  let st := if (0 <? unit_turns st)%nat
            then <["simulation" := default_simulation]> st else st in
  match st !! "autoDelay" with
  | Some (Json.Dict ad) =>
      let cur := default (Json.Int 500) (ad !! "manualMs") in
      Ok (<["autoDelay" := Json.Dict (setdefault "currentMs" cur ad)]> st)
  | Some _ => Raise OtherError
  | None => Ok (<["autoDelay" := default_autoDelay]> st)
  end.

(** [load_state()]: [file] is [None] when the state file does not exist,
    else what [json.loads] makes of its text. Any exception gives the
    default state. *)
Definition load_state (file : option (result Json.t)) : gmap string Json.t :=
  match file with
  | Some (Ok (Json.Dict st)) =>
      match migrate st with
      | Ok st' => st'
      | Raise _ => default_state
      end
  | _ => default_state
  end.

End ServerState.

(* ===================================================================== *)
(** ** profiles.py *)
(* ===================================================================== *)

Module Profiles.

Definition PROFILE_KEYS : list string :=
  ["targetMl"; "deliveryMode"; "momentary"; "autoDelay"; "units"; "gpio"].

(** [{k: state[k] for k in PROFILE_KEYS if k in state}] *)
Definition profile_part (state : gmap string Json.t) : gmap string Json.t :=
  filter (fun kv => kv.1 ∈ PROFILE_KEYS) state.

(** The three [u.pop(key, None)] calls, which only a dict accepts. *)
Definition strip_unit (u : Json.t) : result Json.t :=
  match u with
  | Json.Dict d =>
      Ok (Json.Dict (delete "status" (delete "deviation" (delete "lastDeliveredMl" d))))
  | _ => Raise OtherError
  end.

(** [_strip_runtime(state)]: the profile it returns and the state afterwards.
    The profile holds the very list and dicts of the state's units, so the
    pops are seen through both. *)
Definition _strip_runtime (state : gmap string Json.t)
    : result (gmap string Json.t * gmap string Json.t) :=
  state' ← for_units strip_unit state;
  Ok (profile_part state', state').

(** The shape guards of [load_profile], on the dict read from the file. *)
Definition load_defaults : list (string * Json.t) :=
  [ ("targetMl", Json.Int 100); ("deliveryMode", Json.Str "flow");
    ("momentary", default_momentary); ("autoDelay", default_autoDelay);
    ("units", Json.List []); ("gpio", Json.Dict ∅) ].

Definition load_profile (data : gmap string Json.t) : gmap string Json.t :=
  setdefaults load_defaults data.

(** [for k in PROFILE_KEYS: if k in prof: state[k] = prof[k]] *)
Definition merge_profile (state prof : gmap string Json.t) : gmap string Json.t :=
  fold_left (fun st k => match prof !! k with
                         | Some v => <[k := v]> st
                         | None => st
                         end) PROFILE_KEYS state.

Definition apply_profile (int_of_str : string -> result Z)
    (state prof : gmap string Json.t) : result (gmap string Json.t) :=
  let state := merge_profile state prof in
  ad' ← normalize_auto int_of_str (default (Json.Dict ∅) (state !! "autoDelay"));
  Ok (<["autoDelay" := ad']> state).

End Profiles.

(** Example state dicts. *)
Module ExJson.

(** A state file with one bare unit and the full simulation switched on. *)
Definition file_state : gmap string Json.t :=
  {[ "units" := Json.List [Json.Dict {[ "id" := Json.Int 1 ]}];
     "simulation" := Json.Dict {[ "telemetry" := Json.Bool true;
                                  "full" := Json.Bool true ]} ]}.

(** What [load_state] makes of it. *)
Definition file_state_loaded : gmap string Json.t :=
  {[ "units" := Json.List [Json.Dict {[ "id" := Json.Int 1;
                                        "perDelayMs" := Json.Int 0;
                                        "pulsesPerLiter" := Json.Int 450 ]}];
     "tramPresets" := default_tramPresets;
     "buzzer" := default_buzzer;
     "pressHistory" := Json.List [];
     "simulation" := default_simulation;
     "autoDelay" := default_autoDelay ]}.

(** A running state whose one unit reports a fault. *)
Definition live_state : gmap string Json.t :=
  {[ "running" := Json.Bool true;
     "units" := Json.List [Json.Dict {[ "id" := Json.Int 1;
                                        "status" := Json.Str "FAULT" ]}] ]}.

(** The same state after a profile has been saved from it, and the profile. *)
Definition live_state_saved : gmap string Json.t :=
  {[ "running" := Json.Bool true;
     "units" := Json.List [Json.Dict {[ "id" := Json.Int 1 ]}] ]}.

Definition saved_profile : gmap string Json.t :=
  {[ "units" := Json.List [Json.Dict {[ "id" := Json.Int 1 ]}] ]}.

(** A profile that names a key outside [PROFILE_KEYS], and the state after
    it has been applied to [live_state_saved]. *)
Definition foreign_profile : gmap string Json.t :=
  {[ "targetMl" := Json.Int 80; "running" := Json.Bool false ]}.

Definition live_state_applied : gmap string Json.t :=
  {[ "running" := Json.Bool true;
     "units" := Json.List [Json.Dict {[ "id" := Json.Int 1 ]}];
     "targetMl" := Json.Int 80;
     "autoDelay" := Json.Dict {[ "currentMs" := Json.Int 500 ]} ]}.

End ExJson.

(* ===================================================================== *)
(** ** Facts about the Python primitives *)
(* ===================================================================== *)

Section SortFacts.
Context {A : Type} (le : A -> A -> bool).
Hypothesis le_total : forall a b, le a b = true \/ le b a = true.
Hypothesis le_trans : forall a b c, le a b = true -> le b c = true -> le a c = true.

Let R (a b : A) : Prop := le a b = true.

Lemma insert_sorted_perm (x : A) (l : list A) :
  insert_sorted le x l ≡ₚ x :: l.
Proof.
  induction l as [|y l IH]; simpl; [reflexivity|].
  destruct (le x y); [reflexivity|].
  rewrite IH. apply Permutation_swap.
Qed.

Lemma sort_perm (l : list A) : sort le l ≡ₚ l.
Proof.
  induction l as [|x l IH]; simpl; [reflexivity|].
  rewrite insert_sorted_perm. by rewrite IH.
Qed.

Lemma insert_sorted_strongly (x : A) (l : list A) :
  StronglySorted R l -> StronglySorted R (insert_sorted le x l).
Proof using le_total le_trans.
  induction 1 as [|y l Hs IH Hy]; simpl.
  - repeat constructor.
  - destruct (le x y) eqn:Hxy.
    + constructor; [by constructor|].
      constructor; [exact Hxy|].
      eapply Forall_impl; [exact Hy|]. intros z Hz. by eapply le_trans.
    + constructor; [exact IH|].
      rewrite insert_sorted_perm. constructor; [|exact Hy].
      destruct (le_total x y) as [H|H]; [congruence|exact H].
Qed.

Lemma sort_strongly_sorted (l : list A) : StronglySorted R (sort le l).
Proof using le_total le_trans.
  induction l as [|x l IH]; simpl; [constructor|].
  by apply insert_sorted_strongly.
Qed.

(** Stability: the items of one key keep their original order. *)
Lemma insert_sorted_filter (k x : A) (l : list A) :
  let same := fun y => le k y && le y k in
  List.filter same (insert_sorted le x l)
  = if same x then x :: List.filter same l else List.filter same l.
Proof using le_trans.
  intros same. induction l as [|y l IH]; simpl; [done|].
  destruct (le x y) eqn:Hxy; simpl; [done|].
  rewrite IH. destruct (same x) eqn:Hx, (same y) eqn:Hy; try done.
  exfalso. unfold same in Hx, Hy.
  apply andb_true_iff in Hx as [_ Hxk]. apply andb_true_iff in Hy as [Hky _].
  rewrite (le_trans _ _ _ Hxk Hky) in Hxy. discriminate.
Qed.

Lemma sort_stable (k : A) (l : list A) :
  let same := fun y => le k y && le y k in
  List.filter same (sort le l) = List.filter same l.
Proof using le_trans.
  intros same. induction l as [|x l IH]; simpl; [done|].
  rewrite (insert_sorted_filter k). fold same. rewrite IH. reflexivity.
Qed.
End SortFacts.

Lemma entry_le_total (a b : entry) : entry_le a b = true \/ entry_le b a = true.
Proof.
  unfold entry_le.
  destruct (Z.ltb_spec (entry_start a) (entry_start b)),
           (Z.ltb_spec (entry_start b) (entry_start a)),
           (Z.eqb_spec (entry_start a) (entry_start b)),
           (Z.eqb_spec (entry_start b) (entry_start a)),
           (Z.leb_spec (entry_id a) (entry_id b)),
           (Z.leb_spec (entry_id b) (entry_id a)); simpl; auto; lia.
Qed.

Lemma entry_le_key_le (a b : entry) : entry_le a b = true <-> key_le a b.
Proof.
  unfold entry_le, key_le.
  rewrite orb_true_iff, andb_true_iff, Z.ltb_lt, Z.eqb_eq, Z.leb_le. tauto.
Qed.

Lemma entry_le_trans (a b c : entry) :
  entry_le a b = true -> entry_le b c = true -> entry_le a c = true.
Proof.
  rewrite !entry_le_key_le. unfold key_le. lia.
Qed.

Section MapM.
Context {A B : Type} (f : A -> result B).

Lemma mapM_cons (x : A) (l : list A) :
  mapM f (x :: l) = (y ← f x; k ← mapM f l; Ok (y :: k)).
Proof. reflexivity. Qed.

Lemma mapM_Ok_Forall2 (l : list A) (k : list B) :
  mapM f l = Ok k <-> Forall2 (fun x y => f x = Ok y) l k.
Proof.
  revert k. induction l as [|x l IH]; intros k.
  - simpl. split.
    + intros [= <-]. constructor.
    + by inversion 1.
  - rewrite mapM_cons. split.
    + destruct (f x) as [y|e] eqn:Hx; simpl; [|done].
      destruct (mapM f l) as [k'|e] eqn:Hl; simpl; [|done].
      intros [= <-]. constructor; [done|]. by apply IH.
    + inversion 1 as [|? y ? k' Hx Hl]; subst.
      apply IH in Hl. rewrite Hx. simpl. rewrite Hl. reflexivity.
Qed.

Lemma mapM_is_ok (l : list A) :
  is_ok (mapM f l) = true <-> Forall (fun x => is_ok (f x) = true) l.
Proof.
  induction l as [|x l IH].
  - simpl. split; [constructor|done].
  - rewrite mapM_cons, Forall_cons. rewrite <- IH.
    destruct (f x) as [y|e]; simpl; [|intuition discriminate].
    destruct (mapM f l) as [k|e]; simpl; intuition discriminate.
Qed.
End MapM.

(* ===================================================================== *)
(** ** The planner loop *)
(* ===================================================================== *)

Section Forall2Facts.
Context {A B : Type} (P : A -> B -> Prop).

Lemma Forall2_elem_of_r (l : list A) (k : list B) (y : B) :
  Forall2 P l k -> y ∈ k -> exists x, x ∈ l /\ P x y.
Proof.
  induction 1 as [|x y' l k Hxy _ IH]; intros Hy.
  - by apply elem_of_nil in Hy.
  - apply elem_of_cons in Hy as [->|Hy].
    + exists x. split; [left|done].
    + destruct (IH Hy) as (x' & Hx' & HP). exists x'. split; [by right|done].
Qed.

Lemma Forall2_elem_of_l (l : list A) (k : list B) (x : A) :
  Forall2 P l k -> x ∈ l -> exists y, y ∈ k /\ P x y.
Proof.
  induction 1 as [|x' y l k Hxy _ IH]; intros Hx.
  - by apply elem_of_nil in Hx.
  - apply elem_of_cons in Hx as [->|Hx].
    + exists y. split; [left|done].
    + destruct (IH Hx) as (y' & Hy' & HP). exists y'. split; [by right|done].
Qed.
End Forall2Facts.

Lemma plan_step_pressed (self : Scheduler) st t0 (m m' : option string) out u :
  plan_step self st t0 m out u = plan_step self st t0 m' out u.
Proof.
  unfold plan_step.
  destruct (negb (UnitState.enabled u)); [reflexivity|].
  destruct (_tram_off self (UnitState.id u)); [reflexivity|].
  by destruct (pressed_filter m u), (pressed_filter m' u).
Qed.

Lemma plan_step_scheduled (self : Scheduler) st t0 m out u :
  plan_step self st t0 m out u
  = if scheduled self u
    then (e ← unit_entry self st t0 u; Ok (out ++ [e]))
    else Ok out.
Proof.
  unfold plan_step, scheduled, unit_entry.
  destruct (UnitState.enabled u); simpl; [|reflexivity].
  destruct (_tram_off self (UnitState.id u)); simpl; [reflexivity|].
  destruct (pressed_filter m u);
    by destruct (_duration_and_mode u st) as [[d i]|].
Qed.

(** The loop appends, in the order of [st.units], the entry of every unit
    that passes the two guards. *)
Lemma plan_loop_eq (self : Scheduler) st t0 m (us : list UnitState.t) out :
  plan_loop self st t0 m us out
  = (es ← mapM (unit_entry self st t0)
               (filter (fun u => scheduled self u = true) us);
     Ok (out ++ es)).
Proof.
  revert out. induction us as [|u us IH]; intros out.
  - simpl. by rewrite app_nil_r.
  - simpl plan_loop. rewrite plan_step_scheduled, filter_cons.
    destruct (scheduled self u) eqn:Hs.
    + rewrite decide_True by done. rewrite mapM_cons.
      destruct (unit_entry self st t0 u) as [e|err]; simpl; [|reflexivity].
      rewrite IH.
      destruct (mapM _ _) as [es|err]; simpl; [|reflexivity].
      by rewrite <- app_assoc.
    + rewrite decide_False by (by intros ?). simpl. apply IH.
Qed.

Lemma plan_cycle_eq (self : Scheduler) clock now m :
  plan_cycle self clock now m
  = (es ← mapM (unit_entry self (_state_fn self) (default clock now))
               (filter (fun u => scheduled self u = true)
                       (BrainStateView.units (_state_fn self)));
     Ok (sort entry_le es)).
Proof.
  unfold plan_cycle. rewrite plan_loop_eq.
  replace (match now with Some t => t | None => clock end) with (default clock now)
    by (by destruct now).
  by destruct (mapM _ _).
Qed.

Lemma unit_entry_id (self : Scheduler) st t0 u e :
  unit_entry self st t0 u = Ok e -> entry_id e = UnitState.id u.
Proof.
  unfold unit_entry. destruct (_duration_and_mode u st) as [dm|]; [|done].
  by intros [= <-].
Qed.

Lemma unit_entry_is_ok (self : Scheduler) st t0 u :
  is_ok (unit_entry self st t0 u) = is_ok (_duration_and_mode u st).
Proof. unfold unit_entry. by destruct (_duration_and_mode u st). Qed.

(** [plan_cycle] returns a list exactly when the duration of every unit that
    passes the guards can be computed; otherwise the exception leaves it. *)
Lemma plan_cycle_returns (self : Scheduler) clock now m :
  is_ok (plan_cycle self clock now m) = true
  <-> (forall u, u ∈ BrainStateView.units (_state_fn self) ->
         scheduled self u = true ->
         is_ok (_duration_and_mode u (_state_fn self)) = true).
Proof.
  rewrite plan_cycle_eq.
  set (f := unit_entry _ _ _). set (l := filter _ _).
  transitivity (is_ok (mapM f l) = true).
  { by destruct (mapM f l). }
  rewrite mapM_is_ok, Forall_forall. unfold l, f. split.
  - intros H u Hu Hs. rewrite <- (unit_entry_is_ok self _ (default clock now)).
    apply H. by apply list_elem_of_filter.
  - intros H u [Hs Hu]%list_elem_of_filter. rewrite unit_entry_is_ok. by apply H.
Qed.

(** Whatever the floats, a unit delivering by flow never makes the planner raise. *)
Lemma _duration_and_mode_flow_ok (u : UnitState.t) (st : BrainStateView.t) :
  _inherit_mode (BrainStateView.deliveryMode st) (UnitState.mode u) <> "timed"%string ->
  _duration_and_mode u st
  = Ok (None, FlowInfo (Z.max 1 (int_or (UnitState.pulsesPerCycle u) 100))
                       (Z.max 1 (BrainStateView.targetMl st))).
Proof.
  intros H. unfold _duration_and_mode.
  destruct (String.eqb_spec
              (_inherit_mode (BrainStateView.deliveryMode st) (UnitState.mode u))
              "timed") as [E|_]; [by destruct H|reflexivity].
Qed.

Lemma StronglySorted_impl {A : Type} (R S : A -> A -> Prop) (l : list A) :
  (forall a b, R a b -> S a b) -> StronglySorted R l -> StronglySorted S l.
Proof.
  intros HRS. induction 1 as [|x l _ IH Hx]; constructor; [done|].
  eapply Forall_impl; [exact Hx|]. intros y. apply HRS.
Qed.

Lemma NoDup_fmap_elem_inj {A B : Type} (f : A -> B) (l : list A) (x y : A) :
  NoDup (f <$> l) -> x ∈ l -> y ∈ l -> f x = f y -> x = y.
Proof.
  induction l as [|a l IH]; intros Hnd Hx Hy Hf.
  - by apply elem_of_nil in Hx.
  - rewrite fmap_cons in Hnd. apply NoDup_cons in Hnd as [Ha Hnd].
    apply elem_of_cons in Hx as [->|Hx]; apply elem_of_cons in Hy as [->|Hy].
    + done.
    + destruct Ha. rewrite Hf. by apply list_elem_of_fmap_2.
    + destruct Ha. rewrite <- Hf. by apply list_elem_of_fmap_2.
    + by apply IH.
Qed.

(** Every entry of a returned plan is the tuple of a unit that passed the
    guards, and every such unit has its entry. *)
Lemma plan_cycle_entries (self : Scheduler) clock now m plan :
  plan_cycle self clock now m = Ok plan ->
  exists es,
    Forall2 (fun u e => unit_entry self (_state_fn self) (default clock now) u = Ok e)
            (filter (fun u => scheduled self u = true)
                    (BrainStateView.units (_state_fn self))) es
    /\ plan = sort entry_le es.
Proof.
  rewrite plan_cycle_eq.
  destruct (mapM _ _) as [es|err] eqn:Hm; simpl; [|done].
  intros [= <-]. exists es. split; [|done]. by apply mapM_Ok_Forall2.
Qed.

Lemma scheduled_true (self : Scheduler) (u : UnitState.t) :
  scheduled self u = true
  <-> UnitState.enabled u = true /\ _tram_off self (UnitState.id u) = false.
Proof.
  unfold scheduled. rewrite andb_true_iff, negb_true_iff. tauto.
Qed.

Lemma int_or_zero (x : Z) : int_or x 0 = x.
Proof. unfold int_or. destruct (Z.eqb_spec x 0); congruence. Qed.

Lemma str_or_empty (s : string) : str_or s "" = s.
Proof. unfold str_or. destruct (String.eqb_spec s ""); congruence. Qed.

(* ===================================================================== *)
(** ** Properties of the timing planner *)
(* ===================================================================== *)

(** C1 (as amended). [start_ms] is the press time plus the pattern base, the
    momentary offset and the per-unit delay, and in the Diamond pattern that
    last component is clamped: for a group-A unit it is floored at 0, for a
    group-B unit it is floored at [- max(0, currentMs)], which is
    [- currentMs] whenever the stored delay is not negative, so that B never
    fires ahead of A's notional zero. In any other pattern ([diagonal],
    [line]) the per-unit delay enters unclamped. *)
Theorem unit_fire_ms_diamond_clamp (self : Scheduler) (t0 : Z)
    (u : UnitState.t) (st : BrainStateView.t) :
  let cur := AutoDelay.currentMs (BrainStateView.autoDelay st) in
  let per := UnitState.perDelayMs u in
  let base := _pattern_base_ms (_pattern self) u (BrainStateView.autoDelay st) 80 in
  _unit_fire_ms self t0 u st
  = t0 + base
    + _momentary_ms (BrainStateView.momentary st) (UnitState.momentary u)
    + clamped_per self u st
  /\ (_pattern self = "diamond"%string -> UnitState.group u = "A"%string ->
      clamped_per self u st = Z.max 0 per)
  /\ (_pattern self = "diamond"%string -> UnitState.group u = "B"%string ->
      clamped_per self u st = Z.max (- Z.max 0 cur) per
      /\ (0 <= cur -> clamped_per self u st = Z.max (- cur) per)
      /\ 0 <= base + clamped_per self u st)
  /\ (_pattern self <> "diamond"%string -> clamped_per self u st = per).
Proof.
  intros cur per base. split; [reflexivity|].
  unfold clamped_per. rewrite int_or_zero. fold cur per.
  split; [|split].
  - intros -> ->. simpl. destruct (Z.ltb_spec per 0); lia.
  - intros Hp Hg. subst base. unfold _pattern_base_ms. rewrite Hp, Hg. simpl.
    fold cur. destruct (Z.ltb_spec per (- Z.max 0 cur)); lia.
  - intros Hp. apply String.eqb_neq in Hp. rewrite Hp. reflexivity.
Qed.

(** The clamp at work: unit 2 (group B) asks for -700 ms against a delay of
    500 ms and gets -500 ms. *)
Lemma unit_fire_ms_diamond_clamp_witness :
  clamped_per Ex.sched (Ex.unit 2 "B" "inherit" (-700) 5%float)
              (Ex.view "timed" Ex.units4)
  = Z.max (- 500) (- 700).
Proof.
  apply (unit_fire_ms_diamond_clamp Ex.sched 0
           (Ex.unit 2 "B" "inherit" (-700) 5%float) (Ex.view "timed" Ex.units4));
    [reflexivity|reflexivity|simpl; lia].
Defined.

(** C1, as stated, fails when the stored delay is negative: with
    [currentMs = -100] the floor [- currentMs] would be 100, while the code
    floors a B unit's delay of -50 at 0. *)
Lemma diamond_clamp_negative_current :
  clamped_per Ex.sched_negative (Ex.unit 2 "B" "inherit" (-50) 5%float)
              Ex.view_negative = 0
  /\ - AutoDelay.currentMs (BrainStateView.autoDelay Ex.view_negative) = 100
  /\ clamped_per Ex.sched_negative (Ex.unit 2 "B" "inherit" (-50) 5%float)
                 Ex.view_negative
     < - AutoDelay.currentMs (BrainStateView.autoDelay Ex.view_negative).
Proof. by vm_compute. Qed.

(** C2. Whenever [plan_cycle] returns a list, the list is sorted by
    [(start_ms, unit_id)]; it holds, in some order, exactly the tuples of
    the units that are enabled and not tramlined off, so each of its entries
    comes from such a unit; no entry carries the id of a unit that is
    tramlined off; and, unit ids being unique, none carries the id of a
    disabled unit. *)
Theorem plan_cycle_sorted_no_disabled (self : Scheduler) (clock : Z)
    (now : option Z) (m : option string) (plan : list entry) :
  plan_cycle self clock now m = Ok plan ->
  let us := BrainStateView.units (_state_fn self) in
  StronglySorted key_le plan
  /\ (exists es,
        Forall2 (fun u e => unit_entry self (_state_fn self) (default clock now) u = Ok e)
                (filter (fun u => scheduled self u = true) us) es
        /\ plan ≡ₚ es)
  /\ (forall e, e ∈ plan ->
        exists u, u ∈ us /\ UnitState.enabled u = true
                  /\ _tram_off self (UnitState.id u) = false
                  /\ entry_id e = UnitState.id u)
  /\ (forall u, u ∈ us -> _tram_off self (UnitState.id u) = true ->
        forall e, e ∈ plan -> entry_id e <> UnitState.id u)
  /\ (NoDup (UnitState.id <$> us) ->
        forall u, u ∈ us -> UnitState.enabled u = false ->
        forall e, e ∈ plan -> entry_id e <> UnitState.id u).
Proof.
  intros Hplan us.
  destruct (plan_cycle_entries _ _ _ _ _ Hplan) as (es & Hes & ->).
  assert (Hfrom : forall e, e ∈ sort entry_le es ->
            exists u, u ∈ us /\ UnitState.enabled u = true
                      /\ _tram_off self (UnitState.id u) = false
                      /\ entry_id e = UnitState.id u).
  { intros e He. rewrite sort_perm in He.
    destruct (Forall2_elem_of_r _ _ _ _ Hes He) as (u & Hu & Hue).
    apply list_elem_of_filter in Hu as [Hs Hu].
    apply scheduled_true in Hs as [Hen Htr].
    exists u. repeat split; try done. by eapply unit_entry_id. }
  split; [|split; [|split; [exact Hfrom|split]]].
  - eapply StronglySorted_impl; [|apply sort_strongly_sorted].
    + intros a b. apply entry_le_key_le.
    + apply entry_le_total.
    + apply entry_le_trans.
  - exists es. split; [exact Hes|apply sort_perm].
  - intros u Hu Htr e He Hid.
    destruct (Hfrom e He) as (u' & _ & _ & Htr' & Hid').
    rewrite <- Hid, Hid' in Htr. congruence.
  - intros Hnd u Hu Hdis e He Hid.
    destruct (Hfrom e He) as (u' & Hu' & Hen' & _ & Hid').
    assert (u = u') as <-.
    { eapply (NoDup_fmap_elem_inj UnitState.id); eauto. congruence. }
    congruence.
Qed.

(** The plan of four default-like units with unit 3 tramlined off. *)
Lemma plan_cycle_sorted_no_disabled_witness :
  StronglySorted key_le Ex.plan4
  /\ forall e, e ∈ Ex.plan4 -> entry_id e <> 3.
Proof.
  pose proof (plan_cycle_sorted_no_disabled Ex.sched 0 (Some 1000) (Some "M2"%string)
                Ex.plan4 ltac:(vm_compute; reflexivity)) as (Hs & _ & _ & Htr & _).
  split; [exact Hs|].
  intros e He. apply (Htr (Ex.unit 3 "A" "timed" (-20) 5%float)); try done.
  unfold Ex.units4. do 2 apply list_elem_of_further. apply list_elem_of_here.
Defined.

(** C10. The plan does not depend on [pressed_m]: whatever switch is named
    (or none), [plan_cycle] returns the same list or raises the same
    exception, and a returned plan holds an entry for every enabled,
    non-tramlined unit, whichever momentary switch the unit is bound to. *)
Theorem plan_cycle_ignores_pressed (self : Scheduler) (clock : Z)
    (now : option Z) (m m' : option string) :
  plan_cycle self clock now m = plan_cycle self clock now m'
  /\ forall plan, plan_cycle self clock now m = Ok plan ->
       forall u, u ∈ BrainStateView.units (_state_fn self) ->
         UnitState.enabled u = true ->
         _tram_off self (UnitState.id u) = false ->
         exists e, e ∈ plan
                   /\ entry_id e = UnitState.id u
                   /\ entry_start e
                      = _unit_fire_ms self (default clock now) u (_state_fn self).
Proof.
  split.
  - by rewrite !plan_cycle_eq.
  - intros plan Hplan u Hu Hen Htr.
    destruct (plan_cycle_entries _ _ _ _ _ Hplan) as (es & Hes & ->).
    assert (Hin : u ∈ filter (fun u => scheduled self u = true)
                         (BrainStateView.units (_state_fn self))).
    { apply list_elem_of_filter. split; [|done]. by apply scheduled_true. }
    destruct (Forall2_elem_of_l _ _ _ _ Hes Hin) as (e & He & Hue).
    exists e. split; [by rewrite sort_perm|].
    split; [by eapply unit_entry_id|].
    unfold unit_entry in Hue.
    destruct (_duration_and_mode u (_state_fn self)); [|done].
    by injection Hue as <-.
Qed.

(** Pressing M2 schedules the M1-bound units exactly as pressing nothing. *)
Lemma plan_cycle_ignores_pressed_witness :
  plan_cycle Ex.sched 0 (Some 1000) (Some "M2"%string)
  = plan_cycle Ex.sched 0 (Some 1000) None.
Proof.
  apply (plan_cycle_ignores_pressed Ex.sched 0 (Some 1000) (Some "M2"%string) None).
Defined.

(** The effective delivery mode: the unit's own when it is [flow] or
    [timed], the global one otherwise. *)
Lemma _inherit_mode_spec (global_mode unit_mode : string) :
  (unit_mode = "flow"%string \/ unit_mode = "timed"%string ->
   _inherit_mode global_mode unit_mode = unit_mode)
  /\ (unit_mode <> "flow"%string -> unit_mode <> "timed"%string ->
      _inherit_mode global_mode unit_mode = global_mode).
Proof.
  unfold _inherit_mode. split.
  - by intros [-> | ->].
  - intros H1%String.eqb_neq H2%String.eqb_neq. by rewrite H1, H2.
Qed.

(** C3 (as amended). For a unit whose effective delivery mode is [timed],
    the planned duration is [round(target_ml * ms_per_ml)] with [target_ml]
    floored at 1 and [ms_per_ml] floored at 0.1, after a zero [msPerMl] has
    been replaced by the default 5.0; the entry's descriptor carries the
    floored [ms_per_ml] and [target_ml]. A non-zero [msPerMl] is used as it
    is, and [target_ml = 100] with [ms_per_ml = 5.0] gives 500 ms. *)
Theorem timed_duration (u : UnitState.t) (st : BrainStateView.t) :
  _inherit_mode (BrainStateView.deliveryMode st) (UnitState.mode u) = "timed"%string ->
  let ms := float_or (UnitState.msPerMl u) 5%float in
  _duration_and_mode u st
  = (d ← claimed_timed_duration (BrainStateView.targetMl st) ms;
     Ok (Some d, TimedInfo (max_float 0x1.999999999999ap-4%float ms)
                           (Z.max 1 (BrainStateView.targetMl st))))
  /\ (PrimFloat.eqb (UnitState.msPerMl u) 0%float = false -> ms = UnitState.msPerMl u)
  /\ (PrimFloat.eqb (UnitState.msPerMl u) 0%float = true -> ms = 5%float)
  /\ (BrainStateView.targetMl st = 100 -> UnitState.msPerMl u = 5%float ->
      _duration_and_mode u st = Ok (Some 500, TimedInfo 5%float 100)).
Proof.
  intros Hmode ms.
  assert (Heq : _duration_and_mode u st
      = (d ← claimed_timed_duration (BrainStateView.targetMl st) ms;
         Ok (Some d, TimedInfo (max_float 0x1.999999999999ap-4%float ms)
                               (Z.max 1 (BrainStateView.targetMl st))))).
  { unfold _duration_and_mode, claimed_timed_duration. rewrite Hmode. simpl.
    fold ms. by destruct (float_of_int _). }
  split; [exact Heq|]. split; [|split].
  - intros H. subst ms. unfold float_or. by rewrite H.
  - intros H. subst ms. unfold float_or. by rewrite H.
  - intros Ht Hm. rewrite Heq. subst ms. rewrite Ht, Hm. by vm_compute.
Qed.

(** The default unit under a global [timed] mode: 100 ml at 5.0 ms/ml. *)
Lemma timed_duration_witness :
  _duration_and_mode (Ex.unit 1 "A" "inherit" 0 5%float) (Ex.view "timed" Ex.units4)
  = Ok (Some 500, TimedInfo 5%float 100).
Proof.
  apply (timed_duration (Ex.unit 1 "A" "inherit" 0 5%float) (Ex.view "timed" Ex.units4));
    reflexivity.
Defined.

(** C3, as stated, fails at [msPerMl = 0]: flooring 0 at 0.1 would plan
    [round(100 * 0.1) = 10] ms, while the code takes the default 5.0 and
    plans 500 ms. *)
Lemma timed_duration_zero_ms_per_ml :
  _inherit_mode (BrainStateView.deliveryMode (Ex.view "flow" []))
                (UnitState.mode Ex.unit_zero_ms) = "timed"%string
  /\ _duration_and_mode Ex.unit_zero_ms (Ex.view "flow" [])
     = Ok (Some 500, TimedInfo 5%float 100)
  /\ claimed_timed_duration (BrainStateView.targetMl (Ex.view "flow" []))
                            (UnitState.msPerMl Ex.unit_zero_ms) = Ok 10.
Proof. by vm_compute. Qed.

(** C4 (as amended). For a unit whose effective delivery mode is [flow], the
    entry has no upfront duration and its descriptor carries
    [pulses = max(1, pulsesPerCycle)] (a zero [pulsesPerCycle] first replaced
    by the default 100) together with [target_ml] floored at 1. The pulse
    count is the unit's configured pulses-per-cycle; neither the target
    volume nor a K-factor enters it. *)
Theorem flow_descriptor (u : UnitState.t) (st : BrainStateView.t) :
  _inherit_mode (BrainStateView.deliveryMode st) (UnitState.mode u) = "flow"%string ->
  _duration_and_mode u st
  = Ok (None, FlowInfo (Z.max 1 (int_or (UnitState.pulsesPerCycle u) 100))
                       (Z.max 1 (BrainStateView.targetMl st)))
  /\ (UnitState.pulsesPerCycle u <> 0 ->
      int_or (UnitState.pulsesPerCycle u) 100 = UnitState.pulsesPerCycle u)
  /\ (forall st', _inherit_mode (BrainStateView.deliveryMode st') (UnitState.mode u)
                  = "flow"%string ->
        exists t', _duration_and_mode u st'
                   = Ok (None, FlowInfo (Z.max 1 (int_or (UnitState.pulsesPerCycle u) 100)) t')).
Proof.
  intros Hmode. split; [|split].
  - apply _duration_and_mode_flow_ok. by rewrite Hmode.
  - intros H. unfold int_or. by destruct (Z.eqb_spec (UnitState.pulsesPerCycle u) 0).
  - intros st' Hmode'. eexists. apply _duration_and_mode_flow_ok. by rewrite Hmode'.
Qed.

(** Unit 4 of the example delivers by flow with 100 pulses per cycle. *)
Lemma flow_descriptor_witness :
  _duration_and_mode (Ex.unit 4 "B" "flow" 30 5%float) (Ex.view "timed" Ex.units4)
  = Ok (None, FlowInfo 100 100).
Proof.
  apply (flow_descriptor (Ex.unit 4 "B" "flow" 30 5%float) (Ex.view "timed" Ex.units4)).
  reflexivity.
Defined.

(** C4, as stated, fails: for a target of 100 ml and the default K-factor
    of 450 pulses per liter the claimed target is [round(100 * 450 / 1000)]
    = 45 pulses (below the cap of 100), while the descriptor carries 100. *)
Lemma flow_pulses_not_from_k_factor :
  _duration_and_mode (Ex.unit 4 "B" "flow" 30 5%float) (Ex.view "timed" Ex.units4)
  = Ok (None, FlowInfo 100 100)
  /\ claimed_target_pulses (BrainStateView.targetMl (Ex.view "timed" Ex.units4)) 450
       (UnitState.pulsesPerCycle (Ex.unit 4 "B" "flow" 30 5%float)) = 45.
Proof. by vm_compute. Qed.

(** C5 (as amended). The momentary-offset component of [start_ms] is
    [clamp(offset_percent, 0, 100) * 10] ms for the switch configuration
    stored under the unit's momentary name (0 % gives 0 ms, 100 % gives
    1000 ms, and the value always lies in 0..1000), and it is 0 when no
    configuration is stored under that name. The switch's enabled flag is
    not consulted: switching it on or off leaves the offset as it is. *)
Theorem momentary_ms_clamp (m : gmap string MomentaryCfg.t) (name : string) :
  _momentary_ms m name
  = match m !! name with
    | None => 0
    | Some cfg => Z.max 0 (Z.min 100 (MomentaryCfg.offset cfg)) * 10
    end
  /\ 0 <= _momentary_ms m name <= 1000
  /\ (forall cfg, m !! name = Some cfg -> MomentaryCfg.offset cfg = 0 ->
        _momentary_ms m name = 0)
  /\ (forall cfg, m !! name = Some cfg -> MomentaryCfg.offset cfg = 100 ->
        _momentary_ms m name = 1000)
  /\ (forall cfg en, m !! name = Some cfg ->
        _momentary_ms (<[name := MomentaryCfg.mk en (MomentaryCfg.offset cfg)]> m) name
        = _momentary_ms m name)
  /\ (forall (self : Scheduler) t0 u st,
        BrainStateView.momentary st = m -> UnitState.momentary u = name ->
        _unit_fire_ms self t0 u st
        = t0 + _pattern_base_ms (_pattern self) u (BrainStateView.autoDelay st) 80
          + _momentary_ms m name + clamped_per self u st).
Proof.
  unfold _momentary_ms. rewrite str_or_empty.
  split; [reflexivity|]. split; [|split; [|split; [|split]]].
  - destruct (m !! name); lia.
  - intros cfg -> ->. reflexivity.
  - intros cfg -> ->. reflexivity.
  - intros cfg en ->. by rewrite lookup_insert_eq.
  - intros self t0 u st <- <-. unfold _unit_fire_ms, _momentary_ms.
    by rewrite str_or_empty.
Qed.

(** A disabled switch set to 50 % still shifts its units by 500 ms. *)
Lemma momentary_ms_clamp_witness :
  _momentary_ms Ex.momentary_disabled "M1" = Z.max 0 (Z.min 100 50) * 10.
Proof.
  pose proof (momentary_ms_clamp Ex.momentary_disabled "M1") as [H _].
  rewrite H. reflexivity.
Defined.

(** C5, as stated, fails for a disabled switch: M1 disabled with an offset
    of 50 % contributes 500 ms, not 0. *)
Lemma momentary_ms_disabled_switch :
  (exists cfg, Ex.momentary_disabled !! "M1"%string = Some cfg
               /\ MomentaryCfg.enabled cfg = false)
  /\ _momentary_ms Ex.momentary_disabled "M1" = 500
  /\ claimed_momentary_ms Ex.momentary_disabled "M1" = 0.
Proof.
  split; [|by vm_compute].
  exists (MomentaryCfg.mk false 50). by vm_compute.
Qed.

(* ===================================================================== *)
(** ** Properties of the delay estimator and the press history *)
(* ===================================================================== *)

Lemma publish_current (v : Z) (st : Hub.state) :
  AutoDelayDict.currentMs (Hub.autoDelay (Hub.publish v st).1) = Some v.
Proof. unfold Hub.publish. by case_bool_decide. Qed.

(** The change notification is edge-triggered: nothing is saved or sent when
    the computed value is the stored one. *)
Lemma publish_edge_triggered (v : Z) (st : Hub.state) :
  (AutoDelayDict.currentMs (Hub.autoDelay st) = Some v ->
   Hub.publish v st = (st, []))
  /\ (AutoDelayDict.currentMs (Hub.autoDelay st) <> Some v ->
      (Hub.publish v st).2 = [Hub.SaveState; Hub.SendAutoDelay v]).
Proof. unfold Hub.publish. split; intros H; by case_bool_decide. Qed.

(** C6 (as amended). On a tick of the estimator: with AutoDelay disabled the
    current delay becomes [max(0, manual_ms + geom_lead_ms)] whatever the
    press history; with AutoDelay enabled and fewer than 3 presses in the
    last 15 seconds it becomes the same [max(0, manual_ms + geom_lead_ms)];
    otherwise it becomes [max(0, max(0, int(mean_interval_ms / 2)) +
    geom_lead_ms)], the half mean interval being truncated to an int and
    floored at 0 before the geometry lead is added. The value a tick stores
    is never negative; with AutoDelay disabled, [manual_ms = 500] and
    [geom_lead_ms = 50] it is 550. *)
Theorem auto_delay_tick_current (now : float) (st : Hub.state) :
  let ad := Hub.autoDelay st in
  let manual := AutoDelayDict.get_manualMs ad in
  let geom := AutoDelayDict.get_geomLeadMs ad in
  let ph := Hub.recent now (Hub.pressHistory st) in
  (AutoDelayDict.get_enabled ad = false ->
   Hub._auto_delay_tick now st = Ok (Hub.publish (Z.max 0 (manual + geom)) st))
  /\ (AutoDelayDict.get_enabled ad = true -> (length ph < 3)%nat ->
      Hub._auto_delay_tick now st = Ok (Hub.publish (Z.max 0 (manual + geom)) st))
  /\ (AutoDelayDict.get_enabled ad = true -> (3 <= length ph)%nat ->
      Hub._auto_delay_tick now st
      = (avg ← Hub.mean (Hub.intervals ph);
         h ← int_of_float (avg * 1000 / 2)%float;
         Ok (Hub.publish (Z.max 0 (Z.max 0 h + geom)) st)))
  /\ (forall st' eff, Hub._auto_delay_tick now st = Ok (st', eff) ->
        exists v, 0 <= v /\ AutoDelayDict.currentMs (Hub.autoDelay st') = Some v)
  /\ (AutoDelayDict.enabled ad = Some false ->
      AutoDelayDict.manualMs ad = Some 500 ->
      AutoDelayDict.geomLeadMs ad = Some 50 ->
      exists st' eff, Hub._auto_delay_tick now st = Ok (st', eff)
                      /\ AutoDelayDict.currentMs (Hub.autoDelay st') = Some 550).
Proof.
  intros ad manual geom ph.
  assert (Hoff : AutoDelayDict.get_enabled ad = false ->
            Hub._auto_delay_tick now st
            = Ok (Hub.publish (Z.max 0 (manual + geom)) st)).
  { intros H. unfold Hub._auto_delay_tick. fold ad. by rewrite H. }
  split; [exact Hoff|]. split; [|split; [|split]].
  - intros Hen Hlen. unfold Hub._auto_delay_tick. fold ad ph. rewrite Hen.
    cbn [negb]. destruct (Nat.leb_spec 3 (length ph)); [lia|reflexivity].
  - intros Hen Hlen. unfold Hub._auto_delay_tick, Hub.cadence_ms.
    fold ad ph geom. rewrite Hen. cbn [negb].
    destruct (Nat.leb_spec 3 (length ph)); [|lia].
    destruct (Hub.mean _) as [avg|]; simpl; [|reflexivity].
    by destruct (int_of_float _).
  - intros st' eff. unfold Hub._auto_delay_tick. fold ad ph.
    destruct (negb _).
    + intros [= H]. apply (f_equal fst) in H. simpl in H. subst st'.
      eexists. split; [|apply publish_current]. lia.
    + destruct (if (3 <=? length ph)%nat then _ else _) as [b|]; simpl; [|done].
      intros [= H]. apply (f_equal fst) in H. simpl in H. subst st'.
      eexists. split; [|apply publish_current]. lia.
  - intros He Hm Hg. rewrite Hoff by (unfold AutoDelayDict.get_enabled; by rewrite He).
    destruct (Hub.publish _ st) as [st' eff] eqn:Hp. exists st', eff. split; [done|].
    pose proof (publish_current (Z.max 0 (manual + geom)) st) as Hc.
    rewrite Hp in Hc. simpl in Hc. rewrite Hc. subst manual geom.
    unfold AutoDelayDict.get_manualMs, AutoDelayDict.get_geomLeadMs.
    by rewrite Hm, Hg.
Qed.

(** Presses 1 s apart, read within the window, give 500 ms. *)
Lemma auto_delay_tick_current_witness :
  Hub._auto_delay_tick 3%float
    (Hub.mk (AutoDelayDict.mk (Some true) (Some 800) (Some 0) (Some 800))
            [0; 1; 2]%float)
  = Ok (Hub.publish 500
          (Hub.mk (AutoDelayDict.mk (Some true) (Some 800) (Some 0) (Some 800))
                  [0; 1; 2]%float)).
Proof.
  pose proof (auto_delay_tick_current 3%float
    (Hub.mk (AutoDelayDict.mk (Some true) (Some 800) (Some 0) (Some 800))
            [0; 1; 2]%float)) as (_ & _ & H & _).
  rewrite H; [|reflexivity|vm_compute; lia].
  by vm_compute.
Defined.

(** C6, as stated, fails on the cadence branch: with presses 1 s and
    1.0078125 s apart the half mean interval is 501.953125 ms; the code
    truncates it and stores 501, while rounding gives 502. *)
Lemma cadence_truncates_not_rounds :
  AutoDelayDict.get_enabled (Hub.autoDelay Ex.hub_cadence) = true
  /\ length (Hub.recent Ex.now_cadence (Hub.pressHistory Ex.hub_cadence)) = 3%nat
  /\ Hub._auto_delay_tick Ex.now_cadence Ex.hub_cadence
     = Ok (Hub.publish 501 Ex.hub_cadence)
  /\ AutoDelayDict.currentMs (Hub.autoDelay (Hub.publish 501 Ex.hub_cadence).1)
     = Some 501
  /\ claimed_cadence_current
       (Hub.recent Ex.now_cadence (Hub.pressHistory Ex.hub_cadence))
       (AutoDelayDict.get_geomLeadMs (Hub.autoDelay Ex.hub_cadence))
     = Ok 502.
Proof. by vm_compute. Qed.

(** With too few recent presses the geometry lead is still added to the
    manual delay: 500 + 50 gives 550. *)
Example fallback_adds_geometry_lead :
  Hub._auto_delay_tick Ex.now_old
    (Hub.mk (AutoDelayDict.mk (Some true) (Some 500) (Some 50) (Some 500)) [])
  = Ok (Hub.publish 550
          (Hub.mk (AutoDelayDict.mk (Some true) (Some 500) (Some 50) (Some 500)) [])).
Proof. by vm_compute. Qed.

Lemma last_n_length {A : Type} (n : nat) (l : list A) :
  length (last_n n l) = Nat.min n (length l).
Proof. unfold last_n. rewrite length_drop. lia. Qed.

Lemma last_n_short {A : Type} (n : nat) (l : list A) :
  (length l <= n)%nat -> last_n n l = l.
Proof.
  intros H. unfold last_n. by replace (length l - n)%nat with 0%nat by lia.
Qed.

(** C8 (as amended). After every append of a press timestamp the history
    holds at most 20 entries: it is the old history followed by the new
    stamp, cut down to its last 20 entries, so the new stamp is kept last,
    nothing is evicted while fewer than 20 entries are stored, and the oldest
    entries go first once the cap is reached. No entry is evicted for its
    age; the 15-second window is applied by the estimator when it reads the
    history, not by the store. *)
Theorem record_press_cap (now : float) (st : Hub.state) :
  let ph := Hub.pressHistory st in
  let ph' := Hub.pressHistory (Hub.record_press now st) in
  (length ph' <= 20)%nat
  /\ ph' `suffix_of` (ph ++ [now])
  /\ last ph' = Some now
  /\ ((length ph < 20)%nat -> ph' = ph ++ [now])
  /\ ((20 <= length ph)%nat ->
      length ph' = 20%nat /\ ph' = drop (length ph - 19) ph ++ [now])
  /\ Hub.autoDelay (Hub.record_press now st) = Hub.autoDelay st.
Proof.
  intros ph ph'. subst ph'. unfold Hub.record_press. simpl. fold ph.
  assert (Hlen : length (ph ++ [now]) = S (length ph)).
  { rewrite length_app. simpl. lia. }
  assert (Hdrop : last_n 20 (ph ++ [now]) = drop (length ph - 19) ph ++ [now]).
  { unfold last_n. rewrite Hlen.
    replace (S (length ph) - 20)%nat with (length ph - 19)%nat by lia.
    rewrite drop_app_le by lia. reflexivity. }
  split; [rewrite last_n_length; lia|]. split; [apply suffix_drop|].
  split; [rewrite Hdrop; apply last_snoc|]. split; [|split; [|reflexivity]].
  - intros H. apply last_n_short. lia.
  - intros H. split; [rewrite last_n_length; lia|exact Hdrop].
Qed.

(** A history of 25 stamps is cut to its last 20. *)
Lemma record_press_cap_witness :
  length (Hub.pressHistory
            (Hub.record_press 25%float
               (Hub.mk (Hub.autoDelay Ex.hub_old) (replicate 24 0%float))))
  = 20%nat.
Proof.
  apply (record_press_cap 25%float
           (Hub.mk (Hub.autoDelay Ex.hub_old) (replicate 24 0%float))).
  simpl. lia.
Defined.

(** C8, as stated, fails on the window: a press 100 s old is still stored
    after the next press is appended. *)
Lemma press_history_keeps_old_entry :
  Hub.pressHistory (Hub.record_press Ex.now_old Ex.hub_old)
  = [1700000000; 1700000100]%float
  /\ within_window Ex.now_old 1700000000%float = false.
Proof. by vm_compute. Qed.

(* ===================================================================== *)
(** ** Properties of the GPIO layer *)
(* ===================================================================== *)

(** A finalizer that sets a pin runs exactly once after the body, whether
    the body returned or raised, and the body's outcome stands. *)
Lemma try_finally_output {A : Type} (body : GPIO.io A) (pin : Z) (lvl : bool)
    (h : GPIO.pins) :
  let r := GPIO.try_finally body (GPIO.output pin lvl) h in
  GPIO.calls r.1 = GPIO.calls (body h).1 ++ [(pin, lvl)]
  /\ GPIO.level r.1 = <[pin := lvl]> (GPIO.level (body h).1)
  /\ r.2 = (body h).2.
Proof.
  unfold GPIO.try_finally, GPIO.output. by destruct (body h) as [h1 r].
Qed.

(** For a mapped unit the drive is the guarded wait, started on the pins
    with the unit's pin set high. *)
Lemma open_unit_for_mapped (self : GPIO.t) (o : GPIO.sleep_outcome)
    (unit_id ms pin : Z) (h : GPIO.pins) :
  GPIO.mapping_units self !! unit_id = Some pin ->
  GPIO.open_unit_for self o unit_id ms h
  = GPIO.try_finally
      (secs ← GPIO.lift (GPIO.ms_to_secs (Z.max 0 ms)); GPIO.asyncio_sleep o secs)
      (GPIO.output pin GPIO.LOW)
      (GPIO.mkPins (<[pin := GPIO.HIGH]> (GPIO.level h))
                   (GPIO.calls h ++ [(pin, GPIO.HIGH)])).
Proof. intros H. unfold GPIO.open_unit_for. rewrite H. reflexivity. Qed.

(** C7. When [open_unit_for] drives a mapped unit, it asserts the unit's pin
    once and deasserts it exactly once afterwards on every exit path: when
    the duration elapses, when the wait is cancelled or another exception is
    thrown into it, and when the duration itself cannot be computed. The pin
    is left low, no other pin is touched, and the coroutine returns or
    propagates the exception. *)
Theorem open_unit_for_releases (self : GPIO.t) (o : GPIO.sleep_outcome)
    (unit_id ms pin : Z) (h : GPIO.pins) :
  GPIO.mapping_units self !! unit_id = Some pin ->
  let r := GPIO.open_unit_for self o unit_id ms h in
  GPIO.calls r.1 = GPIO.calls h ++ [(pin, GPIO.HIGH); (pin, GPIO.LOW)]
  /\ GPIO.level r.1 !! pin = Some GPIO.LOW
  /\ (forall p, p <> pin -> GPIO.level r.1 !! p = GPIO.level h !! p)
  /\ r.2 = drive_result o ms.
Proof.
  intros Hpin r. subst r. rewrite (open_unit_for_mapped _ _ _ _ _ _ Hpin).
  match goal with
  | |- context [GPIO.try_finally ?b (GPIO.output pin GPIO.LOW) ?h1] =>
      destruct (try_finally_output b pin GPIO.LOW h1) as (Hc & Hl & Hr);
      set (r := GPIO.try_finally b (GPIO.output pin GPIO.LOW) h1) in *;
      assert (Hb : b h1 = (h1, drive_result o ms))
  end.
  { unfold drive_result, mbind, GPIO.io_bind, GPIO.lift.
    destruct (GPIO.ms_to_secs (Z.max 0 ms)); [|reflexivity].
    by destruct o. }
  rewrite Hb in Hc, Hl, Hr. simpl in Hc, Hl, Hr.
  split; [by rewrite Hc, <- app_assoc|]. split; [|split; [|exact Hr]].
  - rewrite Hl. apply lookup_insert_eq.
  - intros p Hp. rewrite Hl. by rewrite !lookup_insert_ne.
Qed.

(** A drive of unit 1 cancelled in mid-wait: pin 12 goes high, then low. *)
Lemma open_unit_for_releases_witness :
  GPIO.calls (GPIO.open_unit_for Ex.gpio (GPIO.Thrown CancelledError) 1 500 Ex.pins0).1
  = [(12, GPIO.HIGH); (12, GPIO.LOW)].
Proof.
  apply (open_unit_for_releases Ex.gpio (GPIO.Thrown CancelledError) 1 500 12 Ex.pins0).
  reflexivity.
Defined.


(** Run without interleaving, the pulse counter loses nothing: a read
    returns the pulses counted since the previous read and leaves zero. *)
Lemma get_pulses_and_reset_sequential (self : GPIO.t) (n : nat) :
  let counted := Nat.iter n GPIO._flow_cb self in
  (GPIO.get_pulses_and_reset counted).1 = GPIO._pulse_count self + Z.of_nat n
  /\ GPIO._pulse_count (GPIO.get_pulses_and_reset counted).2 = 0.
Proof.
  simpl. split; [|reflexivity].
  induction n as [|n IH]; [simpl; lia|].
  rewrite Nat2Z.inj_succ. simpl in *. lia.
Qed.


(* ===================================================================== *)
(** ** More about the timing planner *)
(* ===================================================================== *)

Lemma _momentary_ms_bounds (m : gmap string MomentaryCfg.t) (name : string) :
  0 <= _momentary_ms m name <= 1000.
Proof. unfold _momentary_ms. destruct (m !! _); lia. Qed.

Lemma _pattern_base_ms_nonneg (pattern : string) (u : UnitState.t)
    (auto : AutoDelay.t) (step : Z) :
  0 <= _pattern_base_ms pattern u auto step.
Proof.
  unfold _pattern_base_ms.
  destruct (String.eqb pattern "diamond"); [destruct (String.eqb _ "A"); lia|].
  destruct (String.eqb pattern "diagonal"); lia.
Qed.

(** X1. The pattern base and the momentary offset are never negative, so a
    unit can only start before the press through a negative per-unit delay:
    [start_ms] is at least the press time plus the (clamped) delay. In the
    Diamond pattern the clamps make up for it, and no group-A or group-B
    unit ever starts before the press; in the other patterns that holds
    for units whose delay is not negative. *)
Theorem unit_fire_not_before_press (self : Scheduler) (t0 : Z)
    (u : UnitState.t) (st : BrainStateView.t) :
  t0 + clamped_per self u st <= _unit_fire_ms self t0 u st
  /\ (_pattern self = "diamond"%string ->
      UnitState.group u = "A"%string \/ UnitState.group u = "B"%string ->
      t0 <= _unit_fire_ms self t0 u st)
  /\ (_pattern self <> "diamond"%string -> 0 <= UnitState.perDelayMs u ->
      t0 <= _unit_fire_ms self t0 u st).
Proof.
  pose proof (_momentary_ms_bounds (BrainStateView.momentary st) (UnitState.momentary u)).
  pose proof (_pattern_base_ms_nonneg (_pattern self) u (BrainStateView.autoDelay st) 80).
  unfold _unit_fire_ms. split; [lia|]. split.
  - intros Hp Hg. revert H0. unfold clamped_per, _pattern_base_ms.
    rewrite int_or_zero, Hp. destruct Hg as [-> | ->]; simpl.
    + destruct (Z.ltb_spec (UnitState.perDelayMs u) 0); lia.
    + destruct (Z.ltb_spec (UnitState.perDelayMs u)
                  (- Z.max 0 (AutoDelay.currentMs (BrainStateView.autoDelay st)))); lia.
  - intros Hp%String.eqb_neq Hper. unfold clamped_per.
    rewrite int_or_zero, Hp. simpl. lia.
Qed.

(** Unit 2 of the example asks for -700 ms and still starts at the press. *)
Lemma unit_fire_not_before_press_witness :
  1000 <= _unit_fire_ms Ex.sched 1000 (Ex.unit 2 "B" "inherit" (-700) 5%float)
            (Ex.view "timed" Ex.units4).
Proof.
  pose proof (unit_fire_not_before_press Ex.sched 1000
                (Ex.unit 2 "B" "inherit" (-700) 5%float) (Ex.view "timed" Ex.units4))
    as (_ & H & _).
  apply H; [reflexivity|by right].
Defined.

(** X2. In the Diagonal pattern two units with ids from 1 up, the same
    momentary switch and the same per-unit delay start 80 ms apart per step
    of unit id. *)
Theorem diagonal_spacing (self : Scheduler) (t0 : Z) (u v : UnitState.t)
    (st : BrainStateView.t) :
  _pattern self = "diagonal"%string ->
  1 <= UnitState.id u -> 1 <= UnitState.id v ->
  UnitState.momentary u = UnitState.momentary v ->
  UnitState.perDelayMs u = UnitState.perDelayMs v ->
  _unit_fire_ms self t0 v st - _unit_fire_ms self t0 u st
  = 80 * (UnitState.id v - UnitState.id u).
Proof.
  intros Hp Hu Hv Hm Hd.
  unfold _unit_fire_ms, clamped_per, _pattern_base_ms.
  rewrite !int_or_zero, Hp, Hm, Hd. simpl. lia.
Qed.

Lemma diagonal_spacing_witness :
  _unit_fire_ms (set_pattern Ex.sched "diagonal") 0 (Ex.unit 4 "B" "flow" 0 5%float)
                (Ex.view "timed" Ex.units4)
  - _unit_fire_ms (set_pattern Ex.sched "diagonal") 0 (Ex.unit 1 "A" "inherit" 0 5%float)
                  (Ex.view "timed" Ex.units4)
  = 80 * (4 - 1).
Proof.
  apply (diagonal_spacing (set_pattern Ex.sched "diagonal") 0
           (Ex.unit 1 "A" "inherit" 0 5%float) (Ex.unit 4 "B" "flow" 0 5%float)
           (Ex.view "timed" Ex.units4)); try reflexivity; simpl; lia.
Defined.

Section SortMore.
Context {A : Type} (le : A -> A -> bool).
Hypothesis le_trans : forall a b c, le a b = true -> le b c = true -> le a c = true.

Lemma insert_sorted_fmap (f : A -> A) (x : A) (l : list A) :
  (forall a b, le (f a) (f b) = le a b) ->
  insert_sorted le (f x) (f <$> l) = f <$> insert_sorted le x l.
Proof.
  intros Hf. induction l as [|y l IH]; [done|].
  rewrite fmap_cons. cbn [insert_sorted].
  rewrite Hf. destruct (le x y); [done|]. by rewrite IH.
Qed.

Lemma sort_fmap (f : A -> A) (l : list A) :
  (forall a b, le (f a) (f b) = le a b) ->
  sort le (f <$> l) = f <$> sort le l.
Proof.
  intros Hf. induction l as [|x l IH]; [done|].
  rewrite fmap_cons. cbn [sort]. rewrite IH. by apply insert_sorted_fmap.
Qed.

Lemma insert_sorted_head (x : A) (l : list A) :
  Forall (fun z => le x z = true) l -> insert_sorted le x l = x :: l.
Proof. destruct 1 as [|z l Hz _]; simpl; [done|]. by rewrite Hz. Qed.

Lemma insert_sorted_list_filter (P : A -> Prop) `{!forall a, Decision (P a)}
    (x : A) (l : list A) :
  StronglySorted (fun a b => le a b = true) l ->
  filter P (insert_sorted le x l)
  = if decide (P x) then insert_sorted le x (filter P l) else filter P l.
Proof using le_trans.
  induction 1 as [|y l Hs IH Hy]; simpl.
  - rewrite filter_cons, filter_nil. by destruct (decide (P x)).
  - destruct (le x y) eqn:Hxy.
    + rewrite (filter_cons P x). destruct (decide (P x)); [|done].
      rewrite insert_sorted_head; [done|].
      apply Forall_forall. intros z [_ Hz]%list_elem_of_filter.
      apply elem_of_cons in Hz as [->|Hz]; [done|].
      eapply le_trans; [exact Hxy|]. by eapply (proj1 (Forall_forall _ _) Hy).
    + rewrite (filter_cons P y), IH, (filter_cons P y).
      destruct (decide (P x)), (decide (P y)); simpl; try done.
      by rewrite Hxy.
Qed.

Lemma sort_list_filter (P : A -> Prop) `{!forall a, Decision (P a)} (l : list A) :
  (forall a b, le a b = true \/ le b a = true) ->
  filter P (sort le l) = sort le (filter P l).
Proof using le_trans.
  intros Htot. induction l as [|x l IH]; simpl; [done|].
  rewrite insert_sorted_list_filter by (by apply sort_strongly_sorted).
  rewrite filter_cons. destruct (decide (P x)); simpl; by rewrite IH.
Qed.
End SortMore.

Lemma mapM_fmap {A B : Type} (f g : A -> result B) (h : B -> B) (l : list A) :
  (forall x, g x = map_result h (f x)) ->
  mapM (M := result) g l = map_result (fmap (M := list) h) (mapM (M := result) f l).
Proof.
  intros Hg. induction l as [|x l IH]; [done|].
  rewrite !mapM_cons, Hg, IH.
  destruct (f x); simpl; [|done]. by destruct (mapM f l).
Qed.

Lemma mapM_ext {A B : Type} (f g : A -> result B) (l : list A) :
  (forall x, g x = f x) -> mapM g l = mapM f l.
Proof.
  intros Hg. induction l as [|x l IH]; [done|]. by rewrite !mapM_cons, Hg, IH.
Qed.

Lemma Forall2_filter_both {A B : Type} (R : A -> B -> Prop)
    (P : A -> Prop) (Q : B -> Prop)
    `{!forall a, Decision (P a)} `{!forall b, Decision (Q b)}
    (l : list A) (k : list B) :
  (forall a b, R a b -> (P a <-> Q b)) ->
  Forall2 R l k -> Forall2 R (filter P l) (filter Q k).
Proof.
  intros HPQ. induction 1 as [|a b l k Hab _ IH]; [constructor|].
  rewrite !filter_cons. pose proof (HPQ a b Hab).
  destruct (decide (P a)), (decide (Q b)); try tauto. by constructor.
Qed.

Lemma Forall2_fmap_eq {A B C : Type} (R : A -> B -> Prop) (f : A -> C) (g : B -> C)
    (l : list A) (k : list B) :
  (forall a b, R a b -> f a = g b) -> Forall2 R l k -> f <$> l = g <$> k.
Proof.
  intros Hfg. induction 1 as [|a b l k Hab _ IH]; [done|].
  rewrite !fmap_cons. f_equal; [by apply Hfg|done].
Qed.

Lemma unit_entry_shift (self : Scheduler) st t d u :
  unit_entry self st (t + d) u = map_result (shift_entry d) (unit_entry self st t u).
Proof.
  unfold unit_entry. destruct (_duration_and_mode u st) as [dm|]; simpl; [|done].
  unfold map_result, shift_entry, _unit_fire_ms,
    entry_id, entry_start, entry_duration, entry_mode. simpl. do 4 f_equal. lia.
Qed.

Lemma entry_le_shift (d : Z) (a b : entry) :
  entry_le (shift_entry d a) (shift_entry d b) = entry_le a b.
Proof.
  unfold entry_le, shift_entry, entry_start, entry_id. simpl.
  f_equal; [|f_equal].
  - apply eq_true_iff_eq. rewrite !Z.ltb_lt. lia.
  - apply eq_true_iff_eq. rewrite !Z.eqb_eq. lia.
Qed.

(** X3. Planning is translation invariant: a press [d] ms later gives the
    same plan with every start time moved [d] ms later, in the same order
    (and the same exception where planning raises). *)
Theorem plan_cycle_shift (self : Scheduler) (clock t d : Z) (m : option string) :
  plan_cycle self clock (Some (t + d)) m
  = map_result (fmap (M := list) (shift_entry d)) (plan_cycle self clock (Some t) m).
Proof.
  rewrite !plan_cycle_eq. simpl default.
  rewrite (mapM_fmap (unit_entry self (_state_fn self) t) _ (shift_entry d))
    by (intros u; apply unit_entry_shift).
  destruct (mapM _ _) as [es|]; simpl; [|done].
  f_equal. apply sort_fmap, entry_le_shift.
Qed.

(** The example plan, pressed 250 ms later. *)
Lemma plan_cycle_shift_witness :
  plan_cycle Ex.sched 0 (Some (1000 + 250)) None
  = Ok (shift_entry 250 <$> Ex.plan4).
Proof.
  rewrite (plan_cycle_shift Ex.sched 0 1000 250 None). by vm_compute.
Defined.

(** X4. A returned plan has one entry per enabled, non-tramlined unit, and
    when the unit ids of the snapshot are distinct so are the ids of its
    entries: no unit is scheduled twice in one cycle. *)
Theorem plan_cycle_one_entry_per_unit (self : Scheduler) (clock : Z)
    (now : option Z) (m : option string) (plan : list entry) :
  plan_cycle self clock now m = Ok plan ->
  let us := BrainStateView.units (_state_fn self) in
  length plan = length (filter (fun u => scheduled self u = true) us)
  /\ (NoDup (UnitState.id <$> us) -> NoDup (entry_id <$> plan)).
Proof.
  intros Hplan us.
  destruct (plan_cycle_entries _ _ _ _ _ Hplan) as (es & Hes & ->).
  split.
  - rewrite sort_perm. symmetry. by eapply Forall2_length.
  - intros Hnd. rewrite sort_perm.
    rewrite <- (Forall2_fmap_eq _ UnitState.id entry_id _ _
                  (fun u e H => eq_sym (unit_entry_id _ _ _ _ _ H)) Hes).
    eapply sublist_NoDup; [exact Hnd|]. apply fmap_sublist, sublist_filter.
Qed.

Lemma plan_cycle_one_entry_per_unit_witness :
  length Ex.plan4 = 3%nat /\ NoDup (entry_id <$> Ex.plan4).
Proof.
  pose proof (plan_cycle_one_entry_per_unit Ex.sched 0 (Some 1000) None Ex.plan4
                ltac:(vm_compute; reflexivity)) as [Hl Hn].
  split; [exact Hl|]. apply Hn.
  apply NoDup_ListNoDup. vm_compute.
  repeat (constructor; [simpl; intuition discriminate|]). constructor.
Defined.

(** X5. Tramlining one more unit off removes that unit's entry from the
    plan and leaves the other entries as they were, in the same order. *)
Theorem plan_cycle_tram_also (self : Scheduler) (clock : Z) (now : option Z)
    (m : option string) (k : Z) (plan : list entry) :
  plan_cycle self clock now m = Ok plan ->
  plan_cycle (tram_also self k) clock now m
  = Ok (filter (fun e => entry_id e <> k) plan).
Proof.
  intros Hplan.
  destruct (plan_cycle_entries _ _ _ _ _ Hplan) as (es & Hes & ->).
  rewrite plan_cycle_eq. cbn [tram_also _state_fn].
  set (st := _state_fn self) in *. set (t0 := default clock now) in *.
  assert (Hf : filter (fun u => scheduled (tram_also self k) u = true)
                      (BrainStateView.units st)
               = filter (fun u => UnitState.id u <> k)
                        (filter (fun u => scheduled self u = true)
                                (BrainStateView.units st))).
  { rewrite list_filter_filter. apply list_filter_iff. intros u.
    unfold scheduled, tram_also. cbn [_tram_off].
    rewrite negb_orb, !andb_true_iff, !negb_true_iff, Z.eqb_neq. tauto. }
  fold st. rewrite Hf.
  assert (Hm : mapM (unit_entry (tram_also self k) st t0)
                 (filter (fun u => UnitState.id u <> k)
                    (filter (fun u => scheduled self u = true)
                            (BrainStateView.units st)))
               = Ok (filter (fun e => entry_id e <> k) es)).
  { apply mapM_Ok_Forall2.
    apply (Forall2_filter_both
             (fun u e => unit_entry (tram_also self k) st t0 u = Ok e)).
    - intros u e He. apply unit_entry_id in He. by rewrite He.
    - exact Hes. }
  rewrite Hm. simpl. f_equal. symmetry.
  apply sort_list_filter; [apply entry_le_trans|apply entry_le_total].
Qed.

(** Tramlining unit 2 off as well leaves units 1 and 4 of the example plan. *)
Lemma plan_cycle_tram_also_witness :
  plan_cycle (tram_also Ex.sched 2) 0 (Some 1000) None
  = Ok (filter (fun e => entry_id e <> 2) Ex.plan4).
Proof.
  apply (plan_cycle_tram_also Ex.sched 0 (Some 1000) None 2 Ex.plan4).
  by vm_compute.
Defined.

Lemma unit_entry_core (self self' : Scheduler) st t0 t0' u e :
  unit_entry self st t0 u = Ok e ->
  exists e', unit_entry self' st t0' u = Ok e' /\ entry_core e' = entry_core e.
Proof.
  unfold unit_entry. destruct (_duration_and_mode u st) as [dm|]; simpl; [|done].
  intros [= <-]. eexists. split; reflexivity.
Qed.

Lemma mapM_unit_entry_core (self self' : Scheduler) st t0 t0' (l : list UnitState.t) es :
  mapM (M := result) (unit_entry self st t0) l = Ok es ->
  exists es', mapM (M := result) (unit_entry self' st t0') l = Ok es'
              /\ entry_core <$> es' = entry_core <$> es.
Proof.
  revert es. induction l as [|u l IH]; intros es.
  - intros [= <-]. by exists [].
  - rewrite !mapM_cons.
    destruct (unit_entry self st t0 u) as [e|] eqn:He; simpl; [|done].
    destruct (unit_entry_core self self' st t0 t0' u e He) as (e' & -> & Hcore).
    destruct (mapM (unit_entry self st t0) l) as [k|]; simpl; [|done].
    intros [= <-]. destruct (IH k eq_refl) as (k' & -> & Hk'). simpl.
    eexists. split; [reflexivity|]. rewrite !fmap_cons, Hk', Hcore. reflexivity.
Qed.

(** X6. The pattern only moves start times: under any other pattern the
    planner returns a plan for the same units with the same durations and
    mode descriptors. *)
Theorem plan_cycle_pattern_core (self : Scheduler) (p : string) (clock : Z)
    (now : option Z) (m : option string) (plan : list entry) :
  plan_cycle self clock now m = Ok plan ->
  exists plan',
    plan_cycle (set_pattern self p) clock now m = Ok plan'
    /\ entry_core <$> plan' ≡ₚ entry_core <$> plan.
Proof.
  intros Hplan.
  destruct (plan_cycle_entries _ _ _ _ _ Hplan) as (es & Hes%mapM_Ok_Forall2 & ->).
  destruct (mapM_unit_entry_core self (set_pattern self p) _ _
              (default clock now) _ _ Hes) as (es' & Hes' & Hcore).
  exists (sort entry_le es'). split; [|by rewrite !sort_perm, Hcore].
  transitivity
    (es ← mapM (unit_entry (set_pattern self p) (_state_fn self) (default clock now))
               (filter (fun u => scheduled self u = true)
                       (BrainStateView.units (_state_fn self)));
     Ok (sort entry_le es)).
  - by rewrite plan_cycle_eq.
  - by rewrite Hes'.
Qed.

Lemma plan_cycle_pattern_core_witness :
  exists plan',
    plan_cycle (set_pattern Ex.sched "line") 0 (Some 1000) None = Ok plan'
    /\ entry_core <$> plan' ≡ₚ entry_core <$> Ex.plan4.
Proof.
  apply (plan_cycle_pattern_core Ex.sched "line" 0 (Some 1000) None Ex.plan4).
  by vm_compute.
Defined.

(** X7. Planning is all or nothing: [plan_cycle] raises exactly when the
    duration of some enabled, non-tramlined unit cannot be computed, and
    then no unit at all is scheduled; it always returns when every such
    unit delivers by flow. *)
Theorem plan_cycle_raises_iff (self : Scheduler) (clock : Z) (now : option Z)
    (m : option string) :
  let st := _state_fn self in
  (is_ok (plan_cycle self clock now m) = false
   <-> exists u, u ∈ BrainStateView.units st /\ scheduled self u = true
                 /\ is_ok (_duration_and_mode u st) = false)
  /\ ((forall u, u ∈ BrainStateView.units st -> scheduled self u = true ->
         _inherit_mode (BrainStateView.deliveryMode st) (UnitState.mode u)
         <> "timed"%string) ->
      is_ok (plan_cycle self clock now m) = true).
Proof.
  intros st. pose proof (plan_cycle_returns self clock now m) as Hret. fold st in Hret.
  split.
  - split.
    + intros Hno.
      destruct (decide (Exists (fun u => scheduled self u = true
                  /\ is_ok (_duration_and_mode u st) = false)
                  (BrainStateView.units st))) as [Hex|Hnex].
      * apply Exists_exists in Hex as (u & Hu & Hs & Hd). exists u.
        split; done.
      * assert (is_ok (plan_cycle self clock now m) = true); [|congruence].
        apply Hret. intros u Hu Hs.
        destruct (is_ok (_duration_and_mode u st)) eqn:Hd; [done|].
        destruct Hnex. apply Exists_exists. exists u.
        split; done.
    + intros (u & Hu & Hs & Hd).
      destruct (is_ok (plan_cycle self clock now m)) eqn:Hok; [|done].
      rewrite (proj1 Hret eq_refl u Hu Hs) in Hd. discriminate.
  - intros Hflow. apply Hret. intros u Hu Hs.
    by rewrite (_duration_and_mode_flow_ok u st (Hflow u Hu Hs)).
Qed.

(** A snapshot whose only unit is timed with an infinite [msPerMl]: the
    planner raises. *)
Lemma plan_cycle_raises_iff_witness :
  is_ok (plan_cycle
           (mkScheduler (Ex.view "timed" [Ex.unit 1 "A" "timed" 0 infinity])
                        (fun _ => false) "diamond") 0 (Some 0) None) = false.
Proof.
  apply (plan_cycle_raises_iff
           (mkScheduler (Ex.view "timed" [Ex.unit 1 "A" "timed" 0 infinity])
                        (fun _ => false) "diamond") 0 (Some 0) None).
  exists (Ex.unit 1 "A" "timed" 0 infinity).
  split; [apply list_elem_of_here|]. by vm_compute.
Defined.

(* ===================================================================== *)
(** ** More about the GPIO layer *)
(* ===================================================================== *)

(** The guarded wait of a timed drive leaves the pins as they were but for
    the final LOW on its pin. *)
Lemma guarded_wait (pin : Z) (o : GPIO.sleep_outcome) (d : Z) (h : GPIO.pins) :
  GPIO.try_finally
    (secs ← GPIO.lift (GPIO.ms_to_secs (Z.max 0 d)); GPIO.asyncio_sleep o secs)
    (GPIO.output pin GPIO.LOW) h
  = (GPIO.mkPins (<[pin := GPIO.LOW]> (GPIO.level h))
                 (GPIO.calls h ++ [(pin, GPIO.LOW)]),
     drive_result o d).
Proof.
  unfold GPIO.try_finally, drive_result, mbind, GPIO.io_bind, GPIO.lift, GPIO.output.
  destruct (GPIO.ms_to_secs (Z.max 0 d)); [|reflexivity]. by destruct o.
Qed.

Lemma buzzer_timed (pin : Z) (o : GPIO.sleep_outcome) (on : bool) (d : Z)
    (h : GPIO.pins) :
  RPiGPIO_buzzer (Some pin) o on (Some d) h
  = (GPIO.mkPins (<[pin := GPIO.LOW]> (<[pin := GPIO.HIGH]> (GPIO.level h)))
                 ((GPIO.calls h ++ [(pin, GPIO.HIGH)]) ++ [(pin, GPIO.LOW)]),
     drive_result o d).
Proof.
  unfold RPiGPIO_buzzer. unfold mbind at 1. unfold GPIO.io_bind.
  cbn [GPIO.output]. by rewrite guarded_wait.
Qed.

(** X8. A timed buzz ([ms] given) on a mapped buzzer drives the pin high
    once and low exactly once afterwards on every exit path, and it does so
    whatever [on] says: [buzzer(False, ms)] sounds the buzzer too. With no
    [ms] the pin is set to [on] and stays there; with no buzzer mapped no
    output is touched at all. *)
Theorem buzzer_pulse_or_level (o : GPIO.sleep_outcome) (on : bool)
    (ms : option Z) (h : GPIO.pins) :
  (forall pin d,
     let r := RPiGPIO_buzzer (Some pin) o on (Some d) h in
     GPIO.calls r.1 = GPIO.calls h ++ [(pin, GPIO.HIGH); (pin, GPIO.LOW)]
     /\ GPIO.level r.1 !! pin = Some GPIO.LOW
     /\ r = RPiGPIO_buzzer (Some pin) o (negb on) (Some d) h)
  /\ (forall pin,
        let r := RPiGPIO_buzzer (Some pin) o on None h in
        GPIO.calls r.1 = GPIO.calls h ++ [(pin, on)]
        /\ GPIO.level r.1 !! pin = Some on
        /\ r.2 = Ok tt)
  /\ (RPiGPIO_buzzer None o on ms h).1 = h.
Proof.
  split; [|split].
  - intros pin d r. subst r. rewrite !buzzer_timed. simpl.
    split; [by rewrite <- app_assoc|]. split; [apply lookup_insert_eq|done].
  - intros pin r. subst r. unfold RPiGPIO_buzzer, GPIO.output. simpl.
    destruct on; (split; [done|]); (split; [apply lookup_insert_eq|done]).
  - unfold RPiGPIO_buzzer. destruct ms as [d|]; [|done].
    destruct (d =? 0); [done|].
    unfold mbind, GPIO.io_bind, GPIO.lift.
    destruct (GPIO.ms_to_secs d); [|done]. by destruct o.
Qed.

(** [buzzer(False, 200)] on pin 18, cancelled in mid-wait. *)
Lemma buzzer_pulse_or_level_witness :
  GPIO.calls (RPiGPIO_buzzer (Some 18) (GPIO.Thrown CancelledError) false (Some 200)
                             Ex.pins0).1
  = [(18, GPIO.HIGH); (18, GPIO.LOW)].
Proof.
  apply (buzzer_pulse_or_level (GPIO.Thrown CancelledError) false None Ex.pins0).
Defined.




(** X10. The pulse counter conserves pulses when its operations run one
    after the other: over any sequence of pulse edges, simulated pulses and
    read-and-reset calls, the counts the reads returned plus what is left
    in the counter equal what the counter held at the start plus the pulses
    delivered; and the wiring is never touched. *)
Theorem pulse_counter_conserves (ops : list pulse_op) (self : GPIO.t) :
  let r := run_pulse_ops ops self in
  sum_Z r.2 + GPIO._pulse_count r.1 = GPIO._pulse_count self + pulses_of ops
  /\ GPIO.mapping_units r.1 = GPIO.mapping_units self.
Proof.
  revert self. induction ops as [|op ops IH]; intros self.
  - simpl. split; [lia|done].
  - destruct op as [|n|]; simpl.
    + destruct (IH (GPIO._flow_cb self)) as [H1 H2]. simpl in *. split; [lia|done].
    + destruct (IH (GPIO._simulate_flow_pulse self n)) as [H1 H2]. simpl in *.
      split; [lia|done].
    + destruct (IH (GPIO.get_pulses_and_reset self).2) as [H1 H2]. simpl in *.
      split; [lia|done].
Qed.

(** Five simulated pulses, a read, an edge and a second read: 5 + 1. *)
Lemma pulse_counter_conserves_witness :
  sum_Z (run_pulse_ops [SimulatePulses 5; ReadReset; FlowEdge; ReadReset] Ex.gpio).2
  + GPIO._pulse_count
      (run_pulse_ops [SimulatePulses 5; ReadReset; FlowEdge; ReadReset] Ex.gpio).1
  = GPIO._pulse_count Ex.gpio + 6.
Proof.
  apply (pulse_counter_conserves
           [SimulatePulses 5; ReadReset; FlowEdge; ReadReset] Ex.gpio).
Defined.

(* ===================================================================== *)
(** ** More about the estimator, the press history and the event log *)
(* ===================================================================== *)

Lemma _auto_delay_tick_value (now : float) (st : Hub.state) :
  Hub._auto_delay_tick now st = (v ← tick_value now st; Ok (Hub.publish v st)).
Proof.
  unfold Hub._auto_delay_tick, tick_value.
  destruct (negb _); [reflexivity|].
  by destruct (if (3 <=? _)%nat then _ else _).
Qed.

Lemma publish_frame (v : Z) (st : Hub.state) :
  let st' := (Hub.publish v st).1 in
  Hub.pressHistory st' = Hub.pressHistory st
  /\ AutoDelayDict.enabled (Hub.autoDelay st') = AutoDelayDict.enabled (Hub.autoDelay st)
  /\ AutoDelayDict.manualMs (Hub.autoDelay st') = AutoDelayDict.manualMs (Hub.autoDelay st)
  /\ AutoDelayDict.geomLeadMs (Hub.autoDelay st')
     = AutoDelayDict.geomLeadMs (Hub.autoDelay st).
Proof. unfold Hub.publish. by case_bool_decide. Qed.

Lemma tick_value_frame (now : float) (st st' : Hub.state) :
  Hub.pressHistory st' = Hub.pressHistory st ->
  AutoDelayDict.enabled (Hub.autoDelay st') = AutoDelayDict.enabled (Hub.autoDelay st) ->
  AutoDelayDict.manualMs (Hub.autoDelay st') = AutoDelayDict.manualMs (Hub.autoDelay st) ->
  AutoDelayDict.geomLeadMs (Hub.autoDelay st')
  = AutoDelayDict.geomLeadMs (Hub.autoDelay st) ->
  tick_value now st' = tick_value now st.
Proof.
  intros Hp He Hm Hg.
  unfold tick_value, AutoDelayDict.get_enabled, AutoDelayDict.get_manualMs,
    AutoDelayDict.get_geomLeadMs.
  by rewrite Hp, He, Hm, Hg.
Qed.

(** X11. A tick of the estimator changes nothing but the stored current
    delay: the press history and the enabled flag, manual delay and geometry
    lead are left as they were. It is also edge-triggered and settles at
    once: a second tick at the same clock reading stores the same value and
    saves and sends nothing. *)
Theorem auto_delay_tick_settles (now : float) (st st' : Hub.state)
    (eff : list Hub.effect) :
  Hub._auto_delay_tick now st = Ok (st', eff) ->
  Hub.pressHistory st' = Hub.pressHistory st
  /\ AutoDelayDict.enabled (Hub.autoDelay st') = AutoDelayDict.enabled (Hub.autoDelay st)
  /\ AutoDelayDict.manualMs (Hub.autoDelay st') = AutoDelayDict.manualMs (Hub.autoDelay st)
  /\ AutoDelayDict.geomLeadMs (Hub.autoDelay st')
     = AutoDelayDict.geomLeadMs (Hub.autoDelay st)
  /\ Hub._auto_delay_tick now st' = Ok (st', []).
Proof.
  rewrite _auto_delay_tick_value.
  destruct (tick_value now st) as [v|] eqn:Hv; simpl; [|done].
  intros [= H]. destruct (publish_frame v st) as (Hp & He & Hm & Hg).
  assert (Hst : st' = (Hub.publish v st).1) by (by rewrite H).
  rewrite <- Hst in Hp, He, Hm, Hg. repeat (split; [done|]).
  rewrite _auto_delay_tick_value, (tick_value_frame now st st') by done.
  rewrite Hv. simpl. f_equal.
  apply publish_edge_triggered. rewrite Hst. apply publish_current.
Qed.

(** The cadence example, ticked once: the second tick is silent. *)
Lemma auto_delay_tick_settles_witness :
  Hub._auto_delay_tick Ex.now_cadence (Hub.publish 501 Ex.hub_cadence).1
  = Ok ((Hub.publish 501 Ex.hub_cadence).1, []).
Proof.
  apply (auto_delay_tick_settles Ex.now_cadence Ex.hub_cadence
           (Hub.publish 501 Ex.hub_cadence).1 (Hub.publish 501 Ex.hub_cadence).2).
  by vm_compute.
Defined.

Lemma last_n_app_last_n {A : Type} (n : nat) (l k : list A) :
  last_n n (last_n n l ++ k) = last_n n (l ++ k).
Proof.
  destruct (decide (length l <= n)%nat) as [Hle|Hgt].
  - by rewrite (last_n_short n l).
  - unfold last_n. rewrite !length_app, length_drop.
    replace (length l - (length l - n) + length k - n)%nat with (length k) by lia.
    replace (length l + length k - n)%nat with ((length l - n) + length k)%nat by lia.
    rewrite <- drop_drop. f_equal. rewrite drop_app_le by lia. reflexivity.
Qed.

Lemma record_presses_history (stamps : list float) (st : Hub.state) :
  stamps <> [] ->
  Hub.pressHistory (record_presses stamps st)
  = last_n 20 (Hub.pressHistory st ++ stamps).
Proof.
  revert st. induction stamps as [|p ps IH]; intros st Hne; [done|].
  change (record_presses (p :: ps) st) with (record_presses ps (Hub.record_press p st)).
  destruct ps as [|q ps]; [reflexivity|].
  rewrite IH by done. unfold Hub.record_press at 1. cbn [Hub.pressHistory].
  rewrite last_n_app_last_n, <- app_assoc. reflexivity.
Qed.

(** X12. Presses recorded one after the other leave the last 20 stamps of
    the old history followed by the new ones; once 20 presses have been
    recorded nothing of the old history is left, whatever it held and
    however long it was. *)
Theorem record_presses_forgets (stamps : list float) (st : Hub.state) :
  (stamps <> [] ->
   Hub.pressHistory (record_presses stamps st)
   = last_n 20 (Hub.pressHistory st ++ stamps))
  /\ ((20 <= length stamps)%nat ->
      Hub.pressHistory (record_presses stamps st) = last_n 20 stamps).
Proof.
  split; [apply record_presses_history|].
  intros Hlen. rewrite record_presses_history by (intros ->; simpl in Hlen; lia).
  unfold last_n. rewrite length_app.
  replace (length (Hub.pressHistory st) + length stamps - 20)%nat
    with (length (Hub.pressHistory st) + (length stamps - 20))%nat by lia.
  by rewrite drop_app_add.
Qed.

(** Twenty presses after an old one: the old stamp is gone. *)
Lemma record_presses_forgets_witness :
  Hub.pressHistory (record_presses (replicate 20 Ex.now_old) Ex.hub_old)
  = last_n 20 (replicate 20 Ex.now_old).
Proof.
  apply (record_presses_forgets (replicate 20 Ex.now_old) Ex.hub_old).
  simpl. lia.
Defined.

Lemma slice_from_neg {A : Type} (n : nat) (l : list A) :
  (0 < n)%nat -> slice_from (- Z.of_nat n) l = last_n n l.
Proof.
  intros Hn. unfold slice_from, last_n.
  destruct (Z.ltb_spec (- Z.of_nat n) 0); [|lia]. f_equal. lia.
Qed.

(** X13. The event log is capped: after [log_event] it never holds more than
    100 entries, whatever it held before; the new entry is its last, the
    entries kept are the most recent ones in their order, and nothing is
    dropped while fewer than 100 entries are stored. *)
Theorem log_event_cap (t : Z) (msg : string) (eventLog : list event) :
  let log' := log_event t msg eventLog in
  (length log' <= 100)%nat
  /\ last log' = Some (t, msg)
  /\ log' `suffix_of` (eventLog ++ [(t, msg)])
  /\ ((length eventLog < 100)%nat -> log' = eventLog ++ [(t, msg)]).
Proof.
  intros log'. subst log'. unfold log_event.
  assert (Hlen : length (eventLog ++ [(t, msg)]) = S (length eventLog)).
  { rewrite length_app. simpl. lia. }
  destruct (Nat.ltb_spec 100 (length (eventLog ++ [(t, msg)]))) as [Hgt|Hle].
  - rewrite (slice_from_neg 100) by lia.
    split; [rewrite last_n_length; lia|]. split; [|split; [apply suffix_drop|lia]].
    unfold last_n. rewrite Hlen.
    replace (S (length eventLog) - 100)%nat with (length eventLog - 99)%nat by lia.
    rewrite drop_app_le by lia. apply last_snoc.
  - split; [lia|]. split; [apply last_snoc|]. split; [done|done].
Qed.

(** A log of 150 entries is cut to the 100 most recent. *)
Lemma log_event_cap_witness :
  (length (log_event 7 "RUN" (replicate 150 (0%Z, "old"%string))) <= 100)%nat.
Proof.
  apply (log_event_cap 7 "RUN" (replicate 150 (0%Z, "old"%string))).
Defined.

(* ===================================================================== *)
(** ** Properties of the message handlers *)
(* ===================================================================== *)

Lemma handle_tram_lookup (uid : string) (off : bool) (tramline : gmap string bool)
    (k : string) :
  handle_tram uid off tramline !! k
  = if decide (k = uid) then (if off then Some true else None)
    else match tramline !! k with Some true => Some true | _ => None end.
Proof.
  unfold handle_tram. rewrite map_lookup_filter.
  destruct (decide (k = uid)) as [->|Hne].
  - rewrite lookup_insert_eq. by destruct off.
  - rewrite lookup_insert_ne by done. by destruct (tramline !! k) as [[]|].
Qed.

(** X14. After a ["tram"] message the tramline dict holds only ids that are
    off, whatever it held before: the unit of the message is stored as off
    or is absent, and every other entry is kept if it was off and dropped if
    it was not. Sending the same message again changes nothing, and on a
    dict holding only off entries the message adds its unit or deletes
    it. *)
Theorem handle_tram_only_off (uid : string) (off : bool)
    (tramline : gmap string bool) :
  map_Forall (fun _ v => v = true) (handle_tram uid off tramline)
  /\ handle_tram uid off tramline !! uid = (if off then Some true else None)
  /\ handle_tram uid off (handle_tram uid off tramline)
     = handle_tram uid off tramline
  /\ (map_Forall (fun _ v => v = true) tramline ->
      handle_tram uid off tramline
      = if off then <[uid := true]> tramline else delete uid tramline).
Proof.
  split; [|split; [|split]].
  - intros k v. rewrite handle_tram_lookup.
    destruct (decide (k = uid)); [by destruct off; intros [= <-]|].
    by destruct (tramline !! k) as [[]|]; intros [= <-].
  - rewrite handle_tram_lookup. by rewrite decide_True.
  - apply map_eq. intros k. rewrite !handle_tram_lookup.
    destruct (decide (k = uid)); [done|].
    by destruct (tramline !! k) as [[]|].
  - intros Hall. apply map_eq. intros k. rewrite handle_tram_lookup.
    destruct (decide (k = uid)) as [->|Hne].
    + destruct off; [by rewrite lookup_insert_eq|by rewrite lookup_delete_eq].
    + assert (Hk : match tramline !! k with Some true => Some true | _ => None end
                   = tramline !! k).
      { destruct (tramline !! k) as [v|] eqn:Hv; [|done].
        by rewrite (Hall k v Hv). }
      rewrite Hk. destruct off;
        [by rewrite lookup_insert_ne|by rewrite lookup_delete_ne].
Qed.

(** Switching unit 3 off and on again on an empty tramline leaves it empty. *)
Lemma handle_tram_only_off_witness :
  handle_tram "3" false (handle_tram "3" true ∅) = delete "3" (handle_tram "3" true ∅).
Proof.
  apply (handle_tram_only_off "3" false (handle_tram "3" true ∅)).
  apply (handle_tram_only_off "3" true ∅).
Defined.

(** X15. The tramline test of the cycle loop follows the ["tram"] messages
    unit by unit: after a message for unit [n] the test answers for [n] what
    the message said, and for every other unit what it answered before. *)
Theorem tram_guard_follows (n : Z) (off : bool) (tramline : gmap string bool) :
  tram_guard (handle_tram (pretty n) off tramline) n = off
  /\ (forall n', n' <> n ->
        tram_guard (handle_tram (pretty n) off tramline) n'
        = tram_guard tramline n')
  /\ (forall n', tram_guard (handle_tram_clear tramline) n' = false).
Proof.
  unfold tram_guard. split; [|split].
  - rewrite handle_tram_lookup, decide_True by done. by destruct off.
  - intros n' Hne. rewrite handle_tram_lookup, decide_False.
    + by destruct (tramline !! pretty n') as [[]|].
    + intros Heq. by apply (inj pretty) in Heq.
  - intros n'. unfold handle_tram_clear. by rewrite lookup_empty.
Qed.

Lemma tram_guard_follows_witness :
  tram_guard (handle_tram (pretty 3) true ∅) 3 = true.
Proof. apply (tram_guard_follows 3 true ∅). Defined.

Lemma assign_unit_id (k : unit_key) (u : UnitDict.t) :
  UnitDict.id (assign_unit k u) = UnitDict.id u.
Proof. by destruct u, k. Qed.

Lemma assign_unit_in_range (k : unit_key) (u : UnitDict.t) :
  unit_in_range u -> unit_in_range (assign_unit k u).
Proof.
  destruct u. unfold unit_in_range. simpl. intros (Ho & Hc & Hl & Hg & Hm).
  destruct k; simpl; repeat split; try done; try lia.
  - destruct (String.eqb v "A"); auto.
  - destruct (String.eqb_spec v "inherit") as [->|_]; simpl; [auto|].
    destruct (String.eqb_spec v "flow") as [->|_]; simpl; [auto|].
    destruct (String.eqb_spec v "timed") as [->|_]; simpl; auto.
Qed.

Lemma set_unit_in_range (uid : Z) (k : unit_key) (units : list UnitDict.t) :
  Forall unit_in_range units -> Forall unit_in_range (set_unit uid k units).
Proof.
  unfold set_unit. intros H. apply Forall_fmap. eapply Forall_impl; [exact H|].
  intros u Hu. simpl. destruct (UnitDict.id u =? uid); [|done].
  by apply assign_unit_in_range.
Qed.

Lemma set_unit_ids (uid : Z) (k : unit_key) (units : list UnitDict.t) :
  UnitDict.id <$> set_unit uid k units = UnitDict.id <$> units.
Proof.
  unfold set_unit. rewrite <- list_fmap_compose. apply list_fmap_ext.
  intros i u _. simpl. destruct (UnitDict.id u =? uid); [|done].
  apply assign_unit_id.
Qed.

(** X16. No run of per-unit ["set"] messages can take a unit out of range:
    if every unit has its offset within 0..100, its pulses-per-cycle and
    K-factor at least 1, its group A or B and its mode one of inherit, flow
    and timed, the same holds after the messages, whatever values they
    carry; and the units keep their ids and their order, none being added or
    removed. The units of [default_state()] start in range. *)
Theorem set_units_in_range (msgs : list (Z * unit_key)) (units : list UnitDict.t) :
  Forall unit_in_range units ->
  Forall unit_in_range (set_units msgs units)
  /\ UnitDict.id <$> set_units msgs units = UnitDict.id <$> units.
Proof.
  revert units. induction msgs as [|[uid k] msgs IH]; intros units Hr; [done|].
  change (set_units ((uid, k) :: msgs) units)
    with (set_units msgs (set_unit uid k units)).
  destruct (IH (set_unit uid k units) (set_unit_in_range uid k units Hr)) as [H1 H2].
  split; [done|]. by rewrite H2, set_unit_ids.
Qed.

Lemma default_units_in_range : Forall unit_in_range default_units.
Proof.
  unfold default_units. apply Forall_fmap.
  repeat (constructor; [unfold unit_in_range; simpl; repeat split; auto; lia|]).
  constructor.
Qed.

(** Out-of-range values sent to the default units. *)
Lemma set_units_in_range_witness :
  Forall unit_in_range
    (set_units [(2, UnitOffset 250); (2, UnitPpc (-4)); (5, UnitGroup "C");
                (5, UnitDeliveryMode "pulse"); (9, UnitKfactor 0)] default_units)
  /\ UnitDict.id
       <$> set_units [(2, UnitOffset 250); (2, UnitPpc (-4)); (5, UnitGroup "C");
                      (5, UnitDeliveryMode "pulse"); (9, UnitKfactor 0)] default_units
     = [1; 2; 3; 4; 5; 6; 7; 8; 9; 10; 11].
Proof.
  apply (set_units_in_range
           [(2, UnitOffset 250); (2, UnitPpc (-4)); (5, UnitGroup "C");
            (5, UnitDeliveryMode "pulse"); (9, UnitKfactor 0)] default_units).
  apply default_units_in_range.
Defined.



(** X18. After the ["auto-delay"] message the dict always carries an
    enabled flag, the manual delay and geometry lead of the message where
    it gives them and the old ones where it does not, and the stored current
    delay untouched. When the message disables AutoDelay the value it
    broadcasts is the bare manual delay, while the next tick of the
    estimator stores [max(0, manual_ms + geom_lead_ms)]. *)
Theorem set_auto_delay_then_tick (cfg : auto_delay_cfg) (now : float)
    (st : Hub.state) :
  let ad := Hub.autoDelay st in
  let r := set_auto_delay cfg ad in
  let manual := default (AutoDelayDict.get_manualMs ad) (cfg_manualMs cfg) in
  let geom := default (AutoDelayDict.get_geomLeadMs ad) (cfg_geomLeadMs cfg) in
  let st1 := Hub.mk r.1 (Hub.pressHistory st) in
  AutoDelayDict.enabled r.1
  = Some (default (AutoDelayDict.get_enabled ad) (cfg_enabled cfg))
  /\ AutoDelayDict.get_manualMs r.1 = manual
  /\ AutoDelayDict.get_geomLeadMs r.1 = geom
  /\ AutoDelayDict.currentMs r.1 = AutoDelayDict.currentMs ad
  /\ (cfg_enabled cfg = Some false ->
      r.2 = manual
      /\ Hub._auto_delay_tick now st1
         = Ok (Hub.publish (Z.max 0 (manual + geom)) st1)).
Proof.
  intros ad r manual geom st1.
  assert (Hm : AutoDelayDict.get_manualMs r.1 = manual).
  { subst r manual. unfold set_auto_delay, AutoDelayDict.get_manualMs. simpl.
    by destruct (cfg_manualMs cfg). }
  assert (Hg : AutoDelayDict.get_geomLeadMs r.1 = geom).
  { subst r geom. unfold set_auto_delay, AutoDelayDict.get_geomLeadMs. simpl.
    by destruct (cfg_geomLeadMs cfg). }
  split; [done|]. split; [exact Hm|]. split; [exact Hg|]. split; [done|].
  intros Hoff. split.
  - rewrite <- Hm. subst r. unfold set_auto_delay. rewrite Hoff. reflexivity.
  - rewrite _auto_delay_tick_value. unfold tick_value. subst st1.
    cbn [Hub.autoDelay]. rewrite Hm, Hg.
    replace (AutoDelayDict.get_enabled r.1) with false; [reflexivity|].
    subst r. unfold set_auto_delay. by rewrite Hoff.
Qed.

(** Disabling with a manual delay of 400 ms and a geometry lead of 50 ms:
    400 is broadcast at once, 450 is what the loop stores. *)
Lemma set_auto_delay_then_tick_witness :
  (set_auto_delay (mkAutoDelayCfg (Some false) (Some 400) (Some 50))
                  (Hub.autoDelay Ex.hub_old)).2 = 400.
Proof.
  apply (set_auto_delay_then_tick (mkAutoDelayCfg (Some false) (Some 400) (Some 50))
           Ex.now_old Ex.hub_old).
  reflexivity.
Defined.

(* ===================================================================== *)
(** ** Properties of the state modules *)
(* ===================================================================== *)

Lemma bind_Ok {A B : Type} (a : A) (f : A -> result B) : (Ok a ≫= f) = f a.
Proof. reflexivity. Qed.

Lemma setdefault_union (k : string) (v : Json.t) (d : gmap string Json.t) :
  setdefault k v d = d ∪ {[ k := v ]}.
Proof.
  unfold setdefault. apply map_eq. intros i.
  rewrite lookup_union. destruct (d !! k) as [w|] eqn:Hk.
  - destruct (decide (i = k)) as [->|Hne].
    + by rewrite Hk, lookup_singleton_eq.
    + rewrite lookup_singleton_ne by done. by destruct (d !! i).
  - destruct (decide (i = k)) as [->|Hne].
    + by rewrite lookup_insert_eq, Hk, lookup_singleton_eq.
    + rewrite lookup_insert_ne, lookup_singleton_ne by done. by destruct (d !! i).
Qed.

(** A run of [setdefault] calls is a union that prefers what the dict has,
    and among the defaults the first given for a key. *)
Lemma setdefaults_union (kvs : list (string * Json.t)) (d : gmap string Json.t) :
  setdefaults kvs d = d ∪ list_to_map kvs.
Proof.
  revert d. induction kvs as [|[k v] kvs IH]; intros d.
  - simpl. by rewrite (right_id_L ∅ (∪)).
  - change (setdefaults ((k, v) :: kvs) d) with (setdefaults kvs (setdefault k v d)).
    rewrite IH, setdefault_union. simpl.
    rewrite <- (assoc_L (∪)). f_equal. by rewrite insert_union_singleton_l.
Qed.

Lemma setdefaults_lookup (kvs : list (string * Json.t)) (d : gmap string Json.t)
    (k : string) :
  setdefaults kvs d !! k
  = match d !! k with
    | Some v => Some v
    | None => (list_to_map kvs : gmap string Json.t) !! k
    end.
Proof.
  rewrite setdefaults_union, lookup_union. destruct (d !! k); [|by rewrite (left_id_L None _)].
  by destruct (_ !! k).
Qed.

Lemma setdefaults_idem (kvs : list (string * Json.t)) (d : gmap string Json.t) :
  setdefaults kvs (setdefaults kvs d) = setdefaults kvs d.
Proof.
  apply map_eq. intros k. rewrite !setdefaults_lookup.
  destruct (d !! k); [done|]. by destruct (_ !! k).
Qed.

Lemma setdefaults_present (kvs : list (string * Json.t)) (d : gmap string Json.t) :
  (forall k, k ∈ kvs.*1 -> is_Some (d !! k)) -> setdefaults kvs d = d.
Proof.
  intros H. apply map_eq. intros k. rewrite setdefaults_lookup.
  destruct (d !! k) as [v|] eqn:Hk; [done|].
  destruct (list_to_map kvs !! k) as [w|] eqn:Hw; [|done].
  apply elem_of_list_to_map_2 in Hw.
  destruct (H k) as [x Hx]; [|congruence].
  apply list_elem_of_fmap. by exists (k, w).
Qed.

Lemma mapM_idem {A : Type} (f : A -> result A) (l l' : list A) :
  (forall u u', f u = Ok u' -> f u' = Ok u') ->
  mapM f l = Ok l' -> mapM f l' = Ok l'.
Proof.
  intros Hf H%mapM_Ok_Forall2. apply mapM_Ok_Forall2.
  induction H as [|u u' l l' Hu _ IH]; constructor; [by eapply Hf|done].
Qed.

Lemma for_items_idem (f : Json.t -> result Json.t) (j j' : Json.t) :
  (forall u u', f u = Ok u' -> f u' = Ok u') ->
  for_items f j = Ok j' -> for_items f j' = Ok j'.
Proof.
  intros Hf. destruct j; simpl;
    try (by intros [= <-]);
    try (destruct (mapM f _) as [k|] eqn:Hk; simpl; [|done];
         intros [= <-]; simpl; by rewrite Hk).
  destruct (mapM f l) as [k|] eqn:Hk; simpl; [|done].
  intros [= <-]. simpl. by rewrite (mapM_idem f l k Hf Hk).
Qed.

Lemma for_units_lookup (f : Json.t -> result Json.t) (st st' : gmap string Json.t)
    (k : string) :
  for_units f st = Ok st' -> k <> "units"%string -> st' !! k = st !! k.
Proof.
  unfold for_units. destruct (st !! "units") as [j|]; [|by intros [= <-]].
  destruct (for_items f j); simpl; [|done].
  intros [= <-] Hk. by rewrite lookup_insert_ne.
Qed.

Lemma for_units_units (f : Json.t -> result Json.t) (st st' : gmap string Json.t) :
  for_units f st = Ok st' ->
  match st !! "units" with
  | None => st' !! "units" = None
  | Some j => exists j', for_items f j = Ok j' /\ st' !! "units" = Some j'
  end.
Proof.
  unfold for_units. destruct (st !! "units") as [j|] eqn:Hu; [|by intros [= <-]].
  destruct (for_items f j) as [j'|]; simpl; [|done].
  intros [= <-]. exists j'. by rewrite lookup_insert_eq.
Qed.

Lemma for_units_idem (f : Json.t -> result Json.t) (st st' : gmap string Json.t) :
  (forall u u', f u = Ok u' -> f u' = Ok u') ->
  for_units f st = Ok st' -> for_units f st' = Ok st'.
Proof.
  intros Hf H. pose proof (for_units_units f st st' H) as Hu.
  unfold for_units in *. destruct (st !! "units") as [j|].
  - destruct Hu as (j' & Hj & Hu). rewrite Hu, (for_items_idem f j j' Hf Hj). simpl.
    by rewrite insert_id.
  - by rewrite Hu.
Qed.

Lemma for_units_insert_other (f : Json.t -> result Json.t)
    (st : gmap string Json.t) (k : string) (v : Json.t) :
  k <> "units"%string ->
  for_units f st = Ok st -> for_units f (<[k := v]> st) = Ok (<[k := v]> st).
Proof.
  intros Hk. unfold for_units. rewrite lookup_insert_ne by done.
  destruct (st !! "units") as [j|]; [|reflexivity].
  destruct (for_items f j) as [j'|]; [|discriminate].
  rewrite !bind_Ok. intros [= Hi]. f_equal.
  rewrite insert_insert_ne by done. by rewrite Hi.
Qed.

Lemma json_in_insert (k : string) (v : Json.t) (d : gmap string Json.t) :
  json_in k (Json.Dict (<[k := v]> d)) = Ok true.
Proof.
  simpl. f_equal. apply bool_decide_eq_true. by rewrite lookup_insert_eq.
Qed.

Section NormalizeAuto.
Variable int_of_str : string -> result Z.

Lemma normalize_auto_has (ad ad' : Json.t) :
  normalize_auto int_of_str ad = Ok ad' -> json_in "currentMs" ad' = Ok true.
Proof.
  unfold normalize_auto. destruct (json_in "currentMs" ad) as [[]|] eqn:Hin; simpl.
  - by intros [= <-].
  - destruct ad; try done.
    destruct (json_int _ _); simpl; [|done]. intros [= <-]. apply json_in_insert.
  - done.
Qed.

Lemma normalize_auto_fixed (ad : Json.t) :
  json_in "currentMs" ad = Ok true -> normalize_auto int_of_str ad = Ok ad.
Proof. unfold normalize_auto. by intros ->. Qed.

Lemma migrate_unit_inv (u u' : Json.t) :
  StateStore.migrate_unit u = Ok u' ->
  exists d, u = Json.Dict d
            /\ u' = Json.Dict (setdefaults StateStore.unit_defaults d).
Proof.
  destruct u; try discriminate. intros H. exists d. split; [reflexivity|].
  change (Ok (Json.Dict (setdefaults StateStore.unit_defaults d)) = Ok u') in H.
  by injection H.
Qed.

Lemma migrate_unit_idem (u u' : Json.t) :
  StateStore.migrate_unit u = Ok u' -> StateStore.migrate_unit u' = Ok u'.
Proof.
  intros H. destruct (migrate_unit_inv u u' H) as (d & -> & ->).
  unfold StateStore.migrate_unit. by rewrite setdefaults_idem.
Qed.

Lemma _migrate_inv (st st' : gmap string Json.t) :
  StateStore._migrate int_of_str st = Ok st' ->
  exists st2 ad ad',
    for_units StateStore.migrate_unit (setdefaults StateStore.top_defaults st) = Ok st2
    /\ st2 !! "autoDelay" = Some ad
    /\ normalize_auto int_of_str ad = Ok ad'
    /\ st' = <["autoDelay" := ad']> st2.
Proof.
  unfold StateStore._migrate.
  destruct (for_units StateStore.migrate_unit _) as [st2|] eqn:H2; [|discriminate].
  rewrite bind_Ok.
  destruct (st2 !! "autoDelay") as [ad|] eqn:Had; [|discriminate].
  destruct (normalize_auto int_of_str ad) as [ad'|] eqn:Hn; [|discriminate].
  rewrite bind_Ok. intros [= <-]. by exists st2, ad, ad'.
Qed.

Lemma top_defaults_map :
  (list_to_map StateStore.top_defaults : gmap string Json.t) = StateStore.default_state.
Proof. reflexivity. Qed.

Lemma default_state_units :
  StateStore.default_state !! "units" = Some StateStore._default_units.
Proof.
  unfold StateStore.default_state.
  repeat (rewrite lookup_insert_ne by discriminate). apply lookup_insert_eq.
Qed.

Lemma default_state_autoDelay :
  StateStore.default_state !! "autoDelay" = Some default_autoDelay.
Proof.
  unfold StateStore.default_state.
  repeat (rewrite lookup_insert_ne by discriminate). apply lookup_insert_eq.
Qed.

Lemma _migrate_all_keys (st st' : gmap string Json.t) :
  StateStore._migrate int_of_str st = Ok st' ->
  forall k, k ∈ StateStore.top_defaults.*1 -> is_Some (st' !! k).
Proof.
  intros Hm. destruct (_migrate_inv st st' Hm) as (st2 & ad & ad' & H2 & Had & Hn & ->).
  set (st1 := setdefaults StateStore.top_defaults st) in *.
  pose proof (for_units_units _ _ _ H2) as Hunits.
  intros k Hk. destruct (decide (k = "autoDelay"%string)) as [->|Ha].
  { rewrite lookup_insert_eq. by eexists. }
  rewrite lookup_insert_ne by done.
  destruct (decide (k = "units"%string)) as [->|Hu].
  { destruct (st1 !! "units") as [j|] eqn:Hj.
    - destruct Hunits as (j' & _ & ->). by eexists.
    - exfalso. unfold st1 in Hj. rewrite setdefaults_lookup in Hj.
      destruct (st !! "units"); [discriminate|].
      rewrite top_defaults_map, default_state_units in Hj. discriminate. }
  rewrite (for_units_lookup _ _ _ _ H2) by done.
  unfold st1. rewrite setdefaults_lookup. destruct (st !! k); [by eexists|].
  apply not_eq_None_Some. intros Hn'%not_elem_of_list_to_map_2. exact (Hn' Hk).
Qed.

(** X19. [_migrate] keeps what the file has and fills what it lacks: when
    it returns, every top-level key of the default state is present, no
    other key has been added, and every key the dict already had, other
    than the units and the auto-delay dict it completes, keeps its value.
    When the units are a list, every unit is then a dict with all eleven
    per-unit keys, and the auto-delay value holds a current delay. *)
Theorem _migrate_fills_and_keeps (st st' : gmap string Json.t) :
  StateStore._migrate int_of_str st = Ok st' ->
  (forall k, k ∈ StateStore.top_defaults.*1 -> is_Some (st' !! k))
  /\ (forall k, k ∉ StateStore.top_defaults.*1 -> st' !! k = st !! k)
  /\ (forall k v, st !! k = Some v -> k <> "units"%string -> k <> "autoDelay"%string ->
        st' !! k = Some v)
  /\ (forall us, st' !! "units" = Some (Json.List us) ->
        Forall (fun u => exists d, u = Json.Dict d
                  /\ forall k, k ∈ StateStore.unit_defaults.*1 -> is_Some (d !! k)) us)
  /\ (exists ad, st' !! "autoDelay" = Some ad /\ json_in "currentMs" ad = Ok true).
Proof.
  intros Hm. destruct (_migrate_inv st st' Hm) as (st2 & ad & ad' & H2 & Had & Hn & ->).
  set (st1 := setdefaults StateStore.top_defaults st) in *.
  assert (Hlook : forall k, k <> "units"%string -> k <> "autoDelay"%string ->
            <["autoDelay" := ad']> st2 !! k = st1 !! k).
  { intros k Hu Ha. rewrite lookup_insert_ne by done.
    by apply (for_units_lookup _ _ _ _ H2). }
  pose proof (for_units_units _ _ _ H2) as Hunits.
  split; [|split; [|split; [|split]]].
  - exact (_migrate_all_keys st _ Hm).
  - intros k Hk.
    assert (k <> "units"%string).
    { intros ->. apply Hk. simpl. do 8 apply list_elem_of_further.
      apply list_elem_of_here. }
    assert (k <> "autoDelay"%string).
    { intros ->. apply Hk. simpl. do 7 apply list_elem_of_further.
      apply list_elem_of_here. }
    rewrite Hlook by done. unfold st1. rewrite setdefaults_lookup.
    destruct (st !! k); [done|]. by apply not_elem_of_list_to_map_1.
  - intros k v Hk Hu Ha. rewrite Hlook by done. unfold st1.
    by rewrite setdefaults_lookup, Hk.
  - intros us. rewrite lookup_insert_ne by discriminate. intros Hus.
    destruct (st1 !! "units") as [j|]; [|congruence].
    destruct Hunits as (j' & Hj & Hj'). rewrite Hus in Hj'. injection Hj' as <-.
    destruct j; simpl in Hj;
      try done;
      try (destruct (mapM _ _); simpl in Hj; done).
    destruct (mapM StateStore.migrate_unit l) as [l'|] eqn:Hl; simpl in Hj; [|done].
    injection Hj as <-. apply mapM_Ok_Forall2 in Hl.
    clear -Hl. induction Hl as [|u u' l l' Hu _ IH]; constructor; [|exact IH].
    destruct (migrate_unit_inv u u' Hu) as (d & _ & ->).
    eexists. split; [reflexivity|].
    intros k Hk. rewrite setdefaults_lookup. destruct (d !! k); [by eexists|].
    apply not_eq_None_Some. intros Hn'%not_elem_of_list_to_map_2. exact (Hn' Hk).
  - exists ad'. rewrite lookup_insert_eq. split; [done|]. by eapply normalize_auto_has.
Qed.

(** X20. [_migrate] is idempotent: migrating a migrated state returns it
    unchanged. *)
Theorem _migrate_idempotent (st st' : gmap string Json.t) :
  StateStore._migrate int_of_str st = Ok st' ->
  StateStore._migrate int_of_str st' = Ok st'.
Proof.
  intros Hm. pose proof (_migrate_all_keys st st' Hm) as Hall.
  destruct (_migrate_inv st st' Hm) as (st2 & ad & ad' & H2 & Had & Hn & ->).
  unfold StateStore._migrate.
  rewrite (setdefaults_present _ _ Hall).
  assert (Hf : for_units StateStore.migrate_unit (<["autoDelay" := ad']> st2)
               = Ok (<["autoDelay" := ad']> st2)).
  { apply for_units_insert_other; [discriminate|].
    exact (for_units_idem _ _ _ migrate_unit_idem H2). }
  rewrite Hf, bind_Ok, lookup_insert_eq.
  rewrite normalize_auto_fixed by (by eapply normalize_auto_has).
  by rewrite bind_Ok, insert_insert_eq.
Qed.

Lemma migrate_default_unit (i : Z) :
  StateStore.migrate_unit (StateStore.default_unit i) = Ok (StateStore.default_unit i).
Proof.
  unfold StateStore.default_unit, StateStore.migrate_unit.
  rewrite setdefaults_present; [reflexivity|]. intros k Hk. simpl in Hk.
  repeat (apply elem_of_cons in Hk as [->|Hk];
          [repeat (rewrite lookup_insert_ne by discriminate);
           first [rewrite lookup_insert_eq | rewrite lookup_singleton_eq];
           by eexists|]).
  try (by apply elem_of_nil in Hk).
Qed.

Lemma mapM_fixed {A : Type} (f : A -> result A) (l : list A) :
  (forall x, x ∈ l -> f x = Ok x) -> mapM f l = Ok l.
Proof.
  intros H. apply mapM_Ok_Forall2. induction l as [|x l IH]; constructor.
  - apply H. apply list_elem_of_here.
  - apply IH. intros y Hy. apply H. by apply list_elem_of_further.
Qed.

Lemma _migrate_empty_eq :
  StateStore._migrate int_of_str ∅ = Ok StateStore.default_state.
Proof.
  unfold StateStore._migrate.
  assert (H0 : setdefaults StateStore.top_defaults ∅ = StateStore.default_state).
  { rewrite setdefaults_union, (left_id_L ∅ (∪)). apply top_defaults_map. }
  rewrite H0.
  pose proof default_state_units as Hu. pose proof default_state_autoDelay as Ha.
  assert (Hf : for_units StateStore.migrate_unit StateStore.default_state
               = Ok StateStore.default_state).
  { unfold for_units. rewrite Hu. unfold StateStore._default_units at 1, for_items.
    rewrite mapM_fixed.
    - rewrite !bind_Ok. by rewrite (insert_id _ _ _ Hu).
    - intros u (i & -> & _)%list_elem_of_fmap. apply migrate_default_unit. }
  rewrite Hf, bind_Ok, Ha.
  rewrite normalize_auto_fixed.
  - rewrite bind_Ok. by rewrite (insert_id _ _ _ Ha).
  - by vm_compute.
Qed.

(** X21. Migrating the empty dict gives exactly [default_state()]: the
    defaults [_migrate] fills in one by one are those of the default state,
    and its eleven default units need no completion. *)
Theorem _migrate_empty : StateStore._migrate int_of_str ∅ = Ok StateStore.default_state.
Proof. exact _migrate_empty_eq. Qed.
End NormalizeAuto.

(** An empty state file content, migrated: the auto-delay dict is there and
    holds a current delay. *)
Lemma _migrate_fills_and_keeps_witness :
  exists ad, StateStore.default_state !! "autoDelay" = Some ad
             /\ json_in "currentMs" ad = Ok true.
Proof.
  apply (_migrate_fills_and_keeps (fun _ => Raise ValueError) ∅ StateStore.default_state).
  apply _migrate_empty_eq.
Defined.

Lemma _migrate_idempotent_witness :
  StateStore._migrate (fun _ => Raise ValueError) StateStore.default_state
  = Ok StateStore.default_state.
Proof.
  apply (_migrate_idempotent (fun _ => Raise ValueError) ∅ StateStore.default_state).
  apply _migrate_empty_eq.
Defined.

(** X22. The cap of [state_store.log_event] is [max_keep] only when that is
    at least 1: then the log never holds more than [max_keep] entries after
    the call and the new entry is its last. With [max_keep = 0] nothing is
    ever dropped, and with a negative [max_keep] the call drops that many of
    the oldest entries instead of keeping that many of the newest. A missing
    log counts as empty. *)
Theorem state_store_log_event_max_keep (max_keep t : Z) (msg : string)
    (eventLog : option (list event)) :
  let all := default [] eventLog ++ [(t, msg)] in
  let log' := StateStore.log_event max_keep t msg eventLog in
  (1 <= max_keep ->
   (length log' <= Z.to_nat max_keep)%nat
   /\ last log' = Some (t, msg)
   /\ log' `suffix_of` all)
  /\ (max_keep = 0 -> log' = all)
  /\ (max_keep < 0 -> log' = drop (Z.to_nat (- max_keep)) all).
Proof.
  intros all log'. subst log'. unfold StateStore.log_event. fold all.
  assert (Hlen : length all = S (length (default [] eventLog))).
  { unfold all. rewrite length_app. simpl. lia. }
  split; [|split].
  - intros Hk. destruct (Z.ltb_spec max_keep (Z.of_nat (length all))) as [Hgt|Hle].
    + replace (- max_keep) with (- Z.of_nat (Z.to_nat max_keep)) by lia.
      rewrite slice_from_neg by lia.
      split; [rewrite last_n_length; lia|]. split; [|apply suffix_drop].
      unfold last_n, all. rewrite length_app. simpl.
      rewrite drop_app_le by lia. apply last_snoc.
    + split; [lia|]. split; [apply last_snoc|done].
  - intros ->. destruct (Z.ltb_spec 0 (Z.of_nat (length all))); [|done].
    unfold slice_from. change (- 0) with 0. change (0 <? 0) with false.
    cbv iota. rewrite Z.min_l by lia. reflexivity.
  - intros Hk. destruct (Z.ltb_spec max_keep (Z.of_nat (length all))); [|lia].
    unfold slice_from. destruct (Z.ltb_spec (- max_keep) 0); [lia|].
    destruct (Z.min_spec (- max_keep) (Z.of_nat (length all))) as [[_ ->]|[Hge ->]];
      [done|].
    rewrite Nat2Z.id, drop_all. symmetry. apply drop_ge. lia.
Qed.

(** [max_keep = 0] keeps a log of 150 entries whole, and the new one. *)
Lemma state_store_log_event_max_keep_witness :
  StateStore.log_event 0 7 "RUN" (Some (replicate 150 (0%Z, "old"%string)))
  = replicate 150 (0%Z, "old"%string) ++ [(7, "RUN"%string)].
Proof.
  pose proof (state_store_log_event_max_keep 0 7 "RUN"
                (Some (replicate 150 (0%Z, "old"%string)))) as (_ & H & _).
  apply H. reflexivity.
Defined.

Lemma ensure_key_has (k : string) (v u u' : Json.t) :
  ensure_key k v u = Ok u' -> json_in k u' = Ok true.
Proof.
  unfold ensure_key. destruct (json_in k u) as [[]|] eqn:Hin; [| |discriminate].
  - rewrite bind_Ok. by intros [= <-].
  - rewrite bind_Ok. destruct u; try discriminate. intros [= <-].
    apply json_in_insert.
Qed.

Lemma ensure_key_keeps (k k' : string) (v u u' : Json.t) :
  ensure_key k v u = Ok u' -> json_in k' u = Ok true -> json_in k' u' = Ok true.
Proof.
  unfold ensure_key. destruct (json_in k u) as [[]|] eqn:Hin; [| |discriminate].
  - rewrite bind_Ok. by intros [= <-].
  - rewrite bind_Ok. destruct u; try discriminate. intros [= <-].
    unfold json_in. intros [= H]. f_equal. apply bool_decide_eq_true.
    apply bool_decide_eq_true in H. destruct (decide (k' = k)) as [->|Hne].
    + rewrite lookup_insert_eq. by eexists.
    + by rewrite lookup_insert_ne.
Qed.

Lemma mapM_length {A B : Type} (f : A -> result B) (l : list A) (k : list B) :
  mapM f l = Ok k -> length k = length l.
Proof. intros H%mapM_Ok_Forall2. symmetry. by eapply Forall2_length. Qed.

Lemma for_items_turns (f : Json.t -> result Json.t) (j j' : Json.t) :
  for_items f j = Ok j' ->
  match json_iter j' with Ok items => length items | Raise _ => 0%nat end
  = match json_iter j with Ok items => length items | Raise _ => 0%nat end.
Proof.
  destruct j; simpl;
    try discriminate;
    try (destruct (mapM f _) as [k|]; [|discriminate]; rewrite bind_Ok;
         by intros [= <-]).
  destruct (mapM f l) as [k|] eqn:Hk; [|discriminate]. rewrite bind_Ok.
  intros [= <-]. simpl. by eapply mapM_length.
Qed.

Lemma for_units_turns (f : Json.t -> result Json.t) (st st' : gmap string Json.t) :
  for_units f st = Ok st' -> ServerState.unit_turns st' = ServerState.unit_turns st.
Proof.
  intros H. pose proof (for_units_units f st st' H) as Hu.
  unfold ServerState.unit_turns. destruct (st !! "units") as [j|].
  - destruct Hu as (j' & Hj & ->). by apply (for_items_turns f).
  - by rewrite Hu.
Qed.

Lemma setdefault_lookup_ne (k k' : string) (v : Json.t) (d : gmap string Json.t) :
  k' <> k -> setdefault k v d !! k' = d !! k'.
Proof.
  intros Hne. unfold setdefault. destruct (d !! k); [done|].
  by rewrite lookup_insert_ne.
Qed.

Lemma setdefault_is_Some (k : string) (v : Json.t) (d : gmap string Json.t) :
  is_Some (setdefault k v d !! k).
Proof.
  unfold setdefault. destruct (d !! k) eqn:Hk; [by rewrite Hk|].
  rewrite lookup_insert_eq. by eexists.
Qed.

Lemma setdefault_turns (k : string) (v : Json.t) (d : gmap string Json.t) :
  k <> "units"%string ->
  ServerState.unit_turns (setdefault k v d) = ServerState.unit_turns d.
Proof.
  intros Hk. unfold ServerState.unit_turns. by rewrite setdefault_lookup_ne.
Qed.

(** The steps of the migration of [load_state], named. *)
Lemma server_migrate_inv (st st' : gmap string Json.t) :
  ServerState.migrate st = Ok st' ->
  exists st1 st2,
    for_units (ensure_key "perDelayMs" (Json.Int 0)) st = Ok st1
    /\ for_units (ensure_key "pulsesPerLiter" (Json.Int 450))
         (setdefault "pressHistory" (Json.List [])
            (setdefault "buzzer" default_buzzer
               (setdefault "tramPresets" default_tramPresets st1))) = Ok st2
    /\ let st3 := if (0 <? ServerState.unit_turns st2)%nat
                  then <["simulation" := default_simulation]> st2 else st2 in
       (exists ad, st3 !! "autoDelay" = Some (Json.Dict ad)
                   /\ st' = <["autoDelay" :=
                               Json.Dict (setdefault "currentMs"
                                            (default (Json.Int 500) (ad !! "manualMs")) ad)]> st3)
       \/ (st3 !! "autoDelay" = None /\ st' = <["autoDelay" := default_autoDelay]> st3).
Proof.
  unfold ServerState.migrate.
  destruct (for_units (ensure_key "perDelayMs" _) st) as [st1|] eqn:H1; [|discriminate].
  rewrite bind_Ok.
  destruct (for_units (ensure_key "pulsesPerLiter" _) _) as [st2|] eqn:H2; [|discriminate].
  rewrite bind_Ok. intros H. exists st1, st2. split; [done|]. split; [done|].
  cbv zeta. destruct (_ !! "autoDelay") as [[]|] eqn:Ha; try discriminate.
  - left. injection H as <-. by eexists.
  - right. by injection H as <-.
Qed.

(** X23. The migration of [load_state] resets the simulation flags whenever
    the loaded state has at least one unit, whatever the file said, because
    the reset sits in the body of the unit loop; with no units it leaves the
    simulation key as it found it, missing if it was missing. Besides the
    units, the simulation flags and the four keys it defaults (tramPresets,
    buzzer, pressHistory, autoDelay) it changes no key and adds none: a
    missing tramline, target or event log stays missing. *)
Theorem server_migrate_simulation (st st' : gmap string Json.t) :
  ServerState.migrate st = Ok st' ->
  ((0 < ServerState.unit_turns st)%nat ->
   st' !! "simulation" = Some default_simulation)
  /\ (ServerState.unit_turns st = 0%nat -> st' !! "simulation" = st !! "simulation")
  /\ (forall k, k ∉ ["units"; "tramPresets"; "buzzer"; "pressHistory";
                     "simulation"; "autoDelay"]%string ->
        st' !! k = st !! k).
Proof.
  intros Hm. destruct (server_migrate_inv st st' Hm) as (st1 & st2 & H1 & H2 & H3).
  set (sd := setdefault "pressHistory" (Json.List [])
               (setdefault "buzzer" default_buzzer
                  (setdefault "tramPresets" default_tramPresets st1))) in *.
  assert (Hturns : ServerState.unit_turns st2 = ServerState.unit_turns st).
  { rewrite (for_units_turns _ _ _ H2). unfold sd.
    rewrite !setdefault_turns by discriminate. by apply (for_units_turns _ _ _ H1). }
  assert (Hk2 : forall k, k <> "units"%string -> k <> "tramPresets"%string ->
            k <> "buzzer"%string -> k <> "pressHistory"%string -> st2 !! k = st !! k).
  { intros k Hu Ht Hb Hp. rewrite (for_units_lookup _ _ _ _ H2) by done. unfold sd.
    rewrite !setdefault_lookup_ne by done. by apply (for_units_lookup _ _ _ _ H1). }
  cbv zeta in H3. rewrite Hturns in H3.
  assert (Hst' : forall k, k <> "autoDelay"%string ->
            st' !! k = (if (0 <? ServerState.unit_turns st)%nat
                        then <["simulation" := default_simulation]> st2 else st2) !! k).
  { intros k Hk. destruct H3 as [(ad & _ & ->)|[_ ->]]; by rewrite lookup_insert_ne. }
  split; [|split].
  - intros Hpos. rewrite Hst' by discriminate.
    destruct (Nat.ltb_spec 0 (ServerState.unit_turns st)); [|lia].
    apply lookup_insert_eq.
  - intros Hz. rewrite Hst' by discriminate. rewrite Hz. simpl.
    apply Hk2; discriminate.
  - intros k Hk.
    assert (Hne : k <> "units"%string /\ k <> "tramPresets"%string
                  /\ k <> "buzzer"%string /\ k <> "pressHistory"%string
                  /\ k <> "simulation"%string /\ k <> "autoDelay"%string).
    { repeat split; intros ->; apply Hk;
        repeat first [apply list_elem_of_here | apply list_elem_of_further]. }
    destruct Hne as (? & ? & ? & ? & ? & ?).
    rewrite Hst' by done.
    destruct (0 <? ServerState.unit_turns st)%nat;
      [rewrite lookup_insert_ne by done|]; by apply Hk2.
Qed.

(** A file with one unit and the full simulation switched on. *)
Lemma server_migrate_simulation_witness :
  ServerState.migrate ExJson.file_state = Ok ExJson.file_state_loaded
  /\ ExJson.file_state_loaded !! "simulation" = Some default_simulation.
Proof.
  assert (H : ServerState.migrate ExJson.file_state = Ok ExJson.file_state_loaded)
    by (vm_compute; reflexivity).
  split; [exact H|].
  pose proof (server_migrate_simulation _ _ H) as (Hs & _ & _).
  apply Hs. vm_compute. lia.
Defined.

Lemma for_items_list_inv (f : Json.t -> result Json.t) (j : Json.t) (l : list Json.t) :
  for_items f j = Ok (Json.List l) ->
  exists l0, j = Json.List l0 /\ mapM f l0 = Ok l.
Proof.
  destruct j; simpl;
    try discriminate;
    try (destruct (mapM f _) as [k|]; [|discriminate]; rewrite bind_Ok;
         discriminate).
  destruct (mapM f l0) as [k|] eqn:Hk; [|discriminate]. rewrite bind_Ok.
  intros [= <-]. by exists l0.
Qed.

Lemma setdefault_lookup (k k' : string) (v : Json.t) (d : gmap string Json.t) :
  setdefault k v d !! k'
  = match d !! k' with
    | Some x => Some x
    | None => if decide (k' = k) then Some v else None
    end.
Proof.
  unfold setdefault. destruct (decide (k' = k)) as [->|Hne].
  - destruct (d !! k) eqn:Hk; [by rewrite Hk|]. by rewrite lookup_insert_eq.
  - destruct (d !! k); [by destruct (d !! k')|].
    rewrite lookup_insert_ne by done. by destruct (d !! k').
Qed.

Lemma server_migrate_lookup (st st' : gmap string Json.t) (k : string) :
  ServerState.migrate st = Ok st' ->
  k <> "units"%string -> k <> "simulation"%string -> k <> "autoDelay"%string ->
  st' !! k
  = setdefault "pressHistory" (Json.List [])
      (setdefault "buzzer" default_buzzer
         (setdefault "tramPresets" default_tramPresets st)) !! k.
Proof.
  intros Hm Hu Hs Ha.
  destruct (server_migrate_inv st st' Hm) as (st1 & st2 & H1 & H2 & H3).
  cbv zeta in H3.
  assert (Hst' : st' !! k = st2 !! k).
  { destruct H3 as [(ad & _ & ->)|[_ ->]]; rewrite lookup_insert_ne by done;
      (destruct (0 <? _)%nat; [by rewrite lookup_insert_ne|done]). }
  rewrite Hst', (for_units_lookup _ _ _ _ H2) by done.
  rewrite !setdefault_lookup.
  by rewrite (for_units_lookup _ _ _ _ H1) by done.
Qed.

Lemma server_migrate_autoDelay (st st' : gmap string Json.t) :
  ServerState.migrate st = Ok st' ->
  exists ad, st' !! "autoDelay" = Some (Json.Dict ad) /\ is_Some (ad !! "currentMs").
Proof.
  intros Hm.
  destruct (server_migrate_inv st st' Hm) as (st1 & st2 & _ & _ & H3).
  cbv zeta in H3. destruct H3 as [(ad & _ & ->)|[_ ->]].
  - eexists. rewrite lookup_insert_eq. split; [reflexivity|].
    apply setdefault_is_Some.
  - unfold default_autoDelay. eexists. rewrite lookup_insert_eq.
    split; [reflexivity|].
    repeat (rewrite lookup_insert_ne by discriminate).
    first [rewrite lookup_insert_eq | rewrite lookup_singleton_eq]. by eexists.
Qed.

Lemma server_migrate_units (st st' : gmap string Json.t) (l : list Json.t) :
  ServerState.migrate st = Ok st' ->
  st' !! "units" = Some (Json.List l) ->
  exists l0 l1, st !! "units" = Some (Json.List l0)
    /\ mapM (ensure_key "perDelayMs" (Json.Int 0)) l0 = Ok l1
    /\ mapM (ensure_key "pulsesPerLiter" (Json.Int 450)) l1 = Ok l.
Proof.
  intros Hm Hl.
  destruct (server_migrate_inv st st' Hm) as (st1 & st2 & H1 & H2 & H3).
  cbv zeta in H3.
  assert (Hst' : st' !! "units" = st2 !! "units").
  { destruct H3 as [(ad & _ & ->)|[_ ->]]; rewrite lookup_insert_ne by discriminate;
      (destruct (0 <? _)%nat; [by rewrite lookup_insert_ne|done]). }
  rewrite Hst' in Hl.
  pose proof (for_units_units _ _ _ H2) as Hu2.
  rewrite !setdefault_lookup_ne in Hu2 by discriminate.
  destruct (st1 !! "units") as [j1|] eqn:Hj1; [|congruence].
  destruct Hu2 as (j2 & Hf2 & Hj2). rewrite Hl in Hj2. injection Hj2 as <-.
  destruct (for_items_list_inv _ _ _ Hf2) as (l1 & -> & Hm2).
  pose proof (for_units_units _ _ _ H1) as Hu1.
  destruct (st !! "units") as [j0|] eqn:Hj0; [|congruence].
  destruct Hu1 as (j1' & Hf1 & Hj1'). rewrite Hj1 in Hj1'. injection Hj1' as <-.
  destruct (for_items_list_inv _ _ _ Hf1) as (l0 & -> & Hm1).
  by exists l0, l1.
Qed.

(** X24. Whatever the state file holds, and whether or not it exists or
    parses, the state [load_state] returns has the keys the hub reads at
    start-up without a default: the tramline presets, the buzzer flags, the
    press history, and an auto-delay dict holding a current delay. *)
Theorem load_state_keys (file : option (result Json.t)) :
  is_Some (ServerState.load_state file !! "tramPresets")
  /\ is_Some (ServerState.load_state file !! "buzzer")
  /\ is_Some (ServerState.load_state file !! "pressHistory")
  /\ exists ad, ServerState.load_state file !! "autoDelay" = Some (Json.Dict ad)
                /\ is_Some (ad !! "currentMs").
Proof.
  assert (Hdef : is_Some (ServerState.default_state !! "tramPresets")
            /\ is_Some (ServerState.default_state !! "buzzer")
            /\ is_Some (ServerState.default_state !! "pressHistory")
            /\ exists ad, ServerState.default_state !! "autoDelay" = Some (Json.Dict ad)
                          /\ is_Some (ad !! "currentMs")).
  { unfold ServerState.default_state.
    split; [|split; [|split]];
      repeat (rewrite lookup_insert_ne by discriminate);
      rewrite lookup_insert_eq; by eexists. }
  unfold ServerState.load_state.
  destruct file as [[j|]|]; [|exact Hdef|exact Hdef].
  destruct j; try exact Hdef.
  destruct (ServerState.migrate d) as [st'|] eqn:Hm; [|exact Hdef].
  split; [|split; [|split]].
  - rewrite (server_migrate_lookup _ _ _ Hm) by discriminate.
    rewrite !setdefault_lookup_ne by discriminate. apply setdefault_is_Some.
  - rewrite (server_migrate_lookup _ _ _ Hm) by discriminate.
    rewrite setdefault_lookup_ne by discriminate. apply setdefault_is_Some.
  - rewrite (server_migrate_lookup _ _ _ Hm) by discriminate.
    apply setdefault_is_Some.
  - exact (server_migrate_autoDelay _ _ Hm).
Qed.

(** X25. When the state [load_state] returns holds a list of units, every
    item of it passes the two key tests of the migration: it has both the
    per-unit delay and the K-factor, whether the file had them or not. *)
Theorem load_state_units_keys (file : option (result Json.t)) (l : list Json.t) :
  ServerState.load_state file !! "units" = Some (Json.List l) ->
  Forall (fun u => json_in "perDelayMs" u = Ok true
                   /\ json_in "pulsesPerLiter" u = Ok true) l.
Proof.
  assert (Hdef : ServerState.default_state !! "units" = Some (Json.List l) ->
            Forall (fun u => json_in "perDelayMs" u = Ok true
                             /\ json_in "pulsesPerLiter" u = Ok true) l).
  { unfold ServerState.default_state.
    repeat (rewrite lookup_insert_ne by discriminate). rewrite lookup_insert_eq.
    assert (Hunit : forall i,
              json_in "perDelayMs" (ServerState.default_unit i) = Ok true
              /\ json_in "pulsesPerLiter" (ServerState.default_unit i) = Ok true).
    { intros i. unfold ServerState.default_unit, json_in.
      split; f_equal; apply bool_decide_eq_true;
        repeat (rewrite lookup_insert_ne by discriminate);
        rewrite lookup_insert_eq; by eexists. }
    intros [= <-]. repeat (constructor; [apply Hunit|]). constructor. }
  unfold ServerState.load_state.
  destruct file as [[j|]|]; [|exact Hdef|exact Hdef].
  destruct j; try exact Hdef.
  destruct (ServerState.migrate d) as [st'|] eqn:Hm; [|exact Hdef].
  intros Hl. destruct (server_migrate_units _ _ _ Hm Hl) as (l0 & l1 & _ & H1 & H2).
  apply mapM_Ok_Forall2 in H1. apply mapM_Ok_Forall2 in H2.
  clear -H1 H2. revert l0 H1.
  induction H2 as [|u1 u l1 l Hu _ IH]; intros l0 H1; [constructor|].
  inversion H1 as [|u0 u1' l0' l1' Hu0 Hl0]; subst.
  constructor; [|by eapply IH].
  split.
  - eapply ensure_key_keeps; [exact Hu|]. by eapply ensure_key_has.
  - by eapply ensure_key_has.
Qed.

(** A file whose one unit has only an id. *)
Lemma load_state_units_keys_witness :
  Forall (fun u => json_in "perDelayMs" u = Ok true
                   /\ json_in "pulsesPerLiter" u = Ok true)
    [Json.Dict {[ "id" := Json.Int 1; "perDelayMs" := Json.Int 0;
                  "pulsesPerLiter" := Json.Int 450 ]}].
Proof.
  apply (load_state_units_keys
           (Some (Ok (Json.Dict {[ "units" := Json.List [Json.Dict {[ "id" := Json.Int 1 ]}] ]})))).
  vm_compute. reflexivity.
Defined.

Lemma profile_part_lookup (state : gmap string Json.t) (k : string) :
  Profiles.profile_part state !! k
  = if decide (k ∈ Profiles.PROFILE_KEYS) then state !! k else None.
Proof.
  unfold Profiles.profile_part. apply option_eq. intros v.
  rewrite map_lookup_filter_Some. simpl.
  destruct (decide (k ∈ Profiles.PROFILE_KEYS)) as [Hin|Hout].
  - split; [by intros [? _]|by intros ?].
  - split; [by intros [_ ?]|discriminate].
Qed.

Lemma merge_keys_lookup (prof : gmap string Json.t) (ks : list string)
    (state : gmap string Json.t) (k : string) :
  fold_left (fun st k => match prof !! k with
                         | Some v => <[k := v]> st
                         | None => st
                         end) ks state !! k
  = if decide (k ∈ ks)
    then match prof !! k with Some v => Some v | None => state !! k end
    else state !! k.
Proof.
  revert state. induction ks as [|a ks IH]; intros state; simpl.
  - destruct (decide (k ∈ [])) as [Hin|_]; [by apply elem_of_nil in Hin|done].
  - rewrite IH.
    assert (Ha : (match prof !! a with
                  | Some v => <[a := v]> state
                  | None => state
                  end) !! k
                 = if decide (k = a)
                   then match prof !! k with Some v => Some v | None => state !! k end
                   else state !! k).
    { destruct (decide (k = a)) as [->|Hne].
      - destruct (prof !! a); [by rewrite lookup_insert_eq|done].
      - destruct (prof !! a); [by rewrite lookup_insert_ne|done]. }
    rewrite Ha.
    destruct (decide (k = a)) as [->|Hne].
    + rewrite (decide_True (P := a ∈ a :: ks)) by apply list_elem_of_here.
      destruct (decide (a ∈ ks)); [by destruct (prof !! a)|done].
    + destruct (decide (k ∈ ks)) as [Hin|Hout].
      * by rewrite (decide_True (P := k ∈ a :: ks)) by (by apply list_elem_of_further).
      * rewrite (decide_False (P := k ∈ a :: ks)); [done|].
        intros [?|?]%elem_of_cons; [by apply Hne|by apply Hout].
Qed.

Lemma merge_profile_lookup (state prof : gmap string Json.t) (k : string) :
  Profiles.merge_profile state prof !! k
  = if decide (k ∈ Profiles.PROFILE_KEYS)
    then match prof !! k with Some v => Some v | None => state !! k end
    else state !! k.
Proof. apply merge_keys_lookup. Qed.

Lemma load_defaults_keys : Profiles.load_defaults.*1 = Profiles.PROFILE_KEYS.
Proof. reflexivity. Qed.

Lemma merge_saved_profile (state : gmap string Json.t) :
  Profiles.merge_profile state (Profiles.load_profile (Profiles.profile_part state))
  = setdefaults Profiles.load_defaults state.
Proof.
  apply map_eq. intros k. rewrite merge_profile_lookup.
  unfold Profiles.load_profile. rewrite !setdefaults_lookup, profile_part_lookup.
  destruct (decide (k ∈ Profiles.PROFILE_KEYS)) as [Hin|Hout].
  - destruct (state !! k); [done|]. by destruct (_ !! k).
  - destruct (state !! k); [done|]. symmetry.
    apply not_elem_of_list_to_map_1. by rewrite load_defaults_keys.
Qed.

Lemma strip_unit_inv (u u' : Json.t) :
  Profiles.strip_unit u = Ok u' ->
  exists d, u = Json.Dict d
            /\ u' = Json.Dict (delete "status" (delete "deviation"
                                 (delete "lastDeliveredMl" d))).
Proof. destruct u; try discriminate. intros [= <-]. by eexists. Qed.

Lemma _strip_runtime_inv (state out state' : gmap string Json.t) :
  Profiles._strip_runtime state = Ok (out, state') ->
  for_units Profiles.strip_unit state = Ok state'
  /\ out = Profiles.profile_part state'.
Proof.
  unfold Profiles._strip_runtime.
  destruct (for_units Profiles.strip_unit state) as [s|]; [|discriminate].
  rewrite bind_Ok. by intros [= <- <-].
Qed.

Section ProfileFacts.
Variable int_of_str : string -> result Z.

(** X26. [apply_profile] updates profile keys only: when it returns, every
    key outside [PROFILE_KEYS] (event log, tramline, runtime flags) has the
    value it had, every profile key other than the auto-delay has the
    profile's value where the profile has one and the state's otherwise,
    and the state holds an auto-delay value with a current delay. *)
Theorem apply_profile_frame (state prof state' : gmap string Json.t) :
  Profiles.apply_profile int_of_str state prof = Ok state' ->
  (forall k, k ∉ Profiles.PROFILE_KEYS -> state' !! k = state !! k)
  /\ (forall k, k ∈ Profiles.PROFILE_KEYS -> k <> "autoDelay"%string ->
        state' !! k = match prof !! k with Some v => Some v | None => state !! k end)
  /\ (exists ad, state' !! "autoDelay" = Some ad /\ json_in "currentMs" ad = Ok true).
Proof.
  unfold Profiles.apply_profile. cbv zeta.
  destruct (normalize_auto int_of_str _) as [ad'|] eqn:Hn; [|discriminate].
  rewrite bind_Ok. intros [= <-]. split; [|split].
  - intros k Hk.
    assert (k <> "autoDelay"%string).
    { intros ->. apply Hk. do 3 apply list_elem_of_further. apply list_elem_of_here. }
    rewrite lookup_insert_ne by done. rewrite merge_profile_lookup.
    by rewrite decide_False.
  - intros k Hk Ha. rewrite lookup_insert_ne by done. rewrite merge_profile_lookup.
    by rewrite decide_True.
  - exists ad'. rewrite lookup_insert_eq. split; [done|].
    by eapply normalize_auto_has.
Qed.

(** X27. A saved profile applies back without change: if [_strip_runtime]
    returns the profile [out] and leaves the state [state'], and the state's
    auto-delay value, when it has one, holds a current delay, then applying
    the profile loaded from a file that gives back [out] returns [state']
    with the shape guards of [load_profile] filled in for the profile keys
    it lacks; it returns [state'] itself when the state has all six profile
    keys. *)
Theorem profile_round_trip (state out state' : gmap string Json.t) :
  Profiles._strip_runtime state = Ok (out, state') ->
  (forall ad, state !! "autoDelay" = Some ad -> json_in "currentMs" ad = Ok true) ->
  Profiles.apply_profile int_of_str state' (Profiles.load_profile out)
  = Ok (setdefaults Profiles.load_defaults state')
  /\ ((forall k, k ∈ Profiles.PROFILE_KEYS -> is_Some (state !! k)) ->
      Profiles.apply_profile int_of_str state' (Profiles.load_profile out) = Ok state').
Proof.
  intros Hs Had. destruct (_strip_runtime_inv _ _ _ Hs) as [Hf ->].
  assert (Hap : Profiles.apply_profile int_of_str state'
                  (Profiles.load_profile (Profiles.profile_part state'))
                = Ok (setdefaults Profiles.load_defaults state')).
  { unfold Profiles.apply_profile. cbv zeta. rewrite merge_saved_profile.
    assert (Hex : exists ad,
              setdefaults Profiles.load_defaults state' !! "autoDelay" = Some ad
              /\ json_in "currentMs" ad = Ok true).
    { rewrite setdefaults_lookup.
      rewrite (for_units_lookup _ _ _ _ Hf) by discriminate.
      destruct (state !! "autoDelay") as [ad|] eqn:Ha.
      - exists ad. split; [done|]. by apply Had.
      - exists default_autoDelay. split; reflexivity. }
    destruct Hex as (ad & Ha & Hin). rewrite Ha. simpl default.
    rewrite normalize_auto_fixed by done. rewrite bind_Ok.
    by rewrite (insert_id _ _ _ Ha). }
  split; [exact Hap|].
  intros Hall. rewrite Hap. f_equal. apply setdefaults_present.
  intros k Hk. rewrite load_defaults_keys in Hk.
  destruct (decide (k = "units"%string)) as [->|Hne].
  - pose proof (for_units_units _ _ _ Hf) as Hu.
    destruct (Hall "units"%string Hk) as [j Hj]. rewrite Hj in Hu.
    destruct Hu as (j' & _ & ->). by eexists.
  - rewrite (for_units_lookup _ _ _ _ Hf) by done. by apply Hall.
Qed.

End ProfileFacts.

(** The profile's running flag does not reach the state. *)
Lemma apply_profile_frame_witness :
  Profiles.apply_profile (fun _ => Raise ValueError)
    ExJson.live_state_saved ExJson.foreign_profile = Ok ExJson.live_state_applied
  /\ ExJson.live_state_applied !! "running" = ExJson.live_state_saved !! "running".
Proof.
  assert (H : Profiles.apply_profile (fun _ => Raise ValueError)
                ExJson.live_state_saved ExJson.foreign_profile
              = Ok ExJson.live_state_applied)
    by (vm_compute; reflexivity).
  split; [exact H|].
  pose proof (apply_profile_frame _ _ _ _ H) as (Hk & _ & _).
  apply Hk. intros Hin.
  repeat (apply elem_of_cons in Hin as [?|Hin]; [discriminate|]).
  by apply elem_of_nil in Hin.
Defined.

Lemma profile_round_trip_witness :
  Profiles._strip_runtime ExJson.live_state
  = Ok (ExJson.saved_profile, ExJson.live_state_saved)
  /\ Profiles.apply_profile (fun _ => Raise ValueError)
       ExJson.live_state_saved (Profiles.load_profile ExJson.saved_profile)
     = Ok (setdefaults Profiles.load_defaults ExJson.live_state_saved).
Proof.
  assert (H : Profiles._strip_runtime ExJson.live_state
              = Ok (ExJson.saved_profile, ExJson.live_state_saved))
    by (vm_compute; reflexivity).
  split; [exact H|].
  apply (profile_round_trip (fun _ => Raise ValueError) _ _ _ H).
  intros ad Had. vm_compute in Had. discriminate Had.
Defined.

(** X28. Saving a profile strips the live state too: when [_strip_runtime]
    returns, the profile holds exactly the profile keys of the state as it
    is afterwards, nothing else; the state keeps every key other than the
    units; and when its units are a list, every unit of the state itself is
    left without last delivery, deviation and status, its other keys as
    they were. *)
Theorem _strip_runtime_strips_state (state out state' : gmap string Json.t) :
  Profiles._strip_runtime state = Ok (out, state') ->
  (forall k, out !! k = if decide (k ∈ Profiles.PROFILE_KEYS) then state' !! k else None)
  /\ (forall k, k <> "units"%string -> state' !! k = state !! k)
  /\ (forall l', state' !! "units" = Some (Json.List l') ->
        exists l, state !! "units" = Some (Json.List l)
          /\ Forall2 (fun u u' => exists d d', u = Json.Dict d /\ u' = Json.Dict d'
                        /\ forall k, d' !! k
                             = if decide (k ∈ ["lastDeliveredMl"; "deviation"; "status"]%string)
                               then None else d !! k) l l').
Proof.
  intros Hs. destruct (_strip_runtime_inv _ _ _ Hs) as [Hf ->].
  split; [|split].
  - intros k. apply profile_part_lookup.
  - intros k Hk. by apply (for_units_lookup _ _ _ _ Hf).
  - intros l' Hl'. pose proof (for_units_units _ _ _ Hf) as Hu.
    destruct (state !! "units") as [j|]; [|congruence].
    destruct Hu as (j' & Hj & Hj'). rewrite Hl' in Hj'. injection Hj' as <-.
    destruct (for_items_list_inv _ _ _ Hj) as (l & -> & Hm).
    exists l. split; [done|]. apply mapM_Ok_Forall2 in Hm.
    eapply Forall2_impl; [exact Hm|]. intros u u' Hu.
    destruct (strip_unit_inv _ _ Hu) as (d & -> & ->).
    exists d. eexists. split; [done|]. split; [done|]. intros k.
    destruct (decide (k = "status"%string)) as [->|H1].
    { rewrite lookup_delete_eq. rewrite decide_True; [done|].
      do 2 apply list_elem_of_further. apply list_elem_of_here. }
    rewrite lookup_delete_ne by done.
    destruct (decide (k = "deviation"%string)) as [->|H2].
    { rewrite lookup_delete_eq. rewrite decide_True; [done|].
      apply list_elem_of_further. apply list_elem_of_here. }
    rewrite lookup_delete_ne by done.
    destruct (decide (k = "lastDeliveredMl"%string)) as [->|H3].
    { rewrite lookup_delete_eq. rewrite decide_True; [done|].
      apply list_elem_of_here. }
    rewrite lookup_delete_ne by done. rewrite decide_False; [done|].
    intros Hin. repeat (apply elem_of_cons in Hin as [?|Hin]; [done|]).
    by apply elem_of_nil in Hin.
Qed.

(** After the save the profile has no running flag and the state's own
    unit has no status any more. *)
Lemma _strip_runtime_strips_state_witness :
  Profiles._strip_runtime ExJson.live_state
  = Ok (ExJson.saved_profile, ExJson.live_state_saved)
  /\ ExJson.saved_profile !! "running" = None
  /\ ExJson.live_state_saved !! "running" = ExJson.live_state !! "running".
Proof.
  assert (H : Profiles._strip_runtime ExJson.live_state
              = Ok (ExJson.saved_profile, ExJson.live_state_saved))
    by (vm_compute; reflexivity).
  split; [exact H|].
  pose proof (_strip_runtime_strips_state _ _ _ H) as (Ho & Hk & _).
  split.
  - rewrite Ho. rewrite decide_False; [reflexivity|].
    intros Hin. repeat (apply elem_of_cons in Hin as [?|Hin]; [discriminate|]).
    by apply elem_of_nil in Hin.
  - apply Hk. discriminate.
Defined.
